(** * The query-resolution pipeline of the Vandri AI agent backend

    A shallow embedding of [src/main.py]: the module-level client handles,
    the [startup] and [shutdown] hooks, the [/chat] endpoint
    ([chat_endpoint]) and the [/analytics] endpoint ([get_analytics]).

    The three external services are modelled by their state and by the
    outcome of each call:
    - Redis is a finite map from keys to values with an expiry instant;
    - the Groq completion API is a function from the request to either an
      exception or a completion;
    - PostgreSQL holds the [interactions] table, with its [SERIAL] sequence.

    Python exceptions are an explicit [Raise] outcome of a state monad, so a
    state change made before an exception is raised persists, as it does in
    Python.  Calls to [logger] write to the process log only and are left
    out.  Python [str] values are Rocq strings. *)

From Stdlib Require Import ZArith QArith Lia.
From stdpp Require Import base option list sorting gmap strings pretty.

Local Open Scope string_scope.
Local Open Scope list_scope.
Local Open Scope Z_scope.

(** ** Exceptions *)

(** [HTTPException] is FastAPI's; [Exception] stands for every other
    exception class and carries the text [str(e)] gives. *)
Inductive Exn : Type :=
| HTTPException (status_code : Z) (detail : string)
| Exception (msg : string).

(** [str(e)].  Starlette prints an [HTTPException] as
    [f"{status_code}: {detail}"]. *)
Definition str (e : Exn) : string :=
  match e with
  | HTTPException status_code detail => pretty status_code +:+ ": " +:+ detail
  | Exception msg => msg
  end.

(** ** Data models (Pydantic) *)

Module UserQuery.
Record t : Type := mk { user_id : Z; text : string }.
End UserQuery.

Module AgentResponse.
(** [latency_seconds] is [timedelta.total_seconds()]: a number of
    microseconds over [10^6]. *)
Record t : Type := mk { response : string; source : string; latency_seconds : Q }.
End AgentResponse.

(** ** The [interactions] table *)

Module Interaction.
(** One row of
    [CREATE TABLE interactions (id SERIAL PRIMARY KEY, user_id INTEGER,
     input_text TEXT, ai_response TEXT, source VARCHAR(20),
     timestamp TIMESTAMP DEFAULT NOW())]. *)
Record t : Type := mk {
  id : Z;
  user_id : Z;
  input_text : string;
  ai_response : string;
  source : string;
  timestamp : Z
}.
End Interaction.

(** The table and the last value handed out by the sequence behind [id]. *)
Record Table : Type := mkTable {
  rows : list Interaction.t;
  id_seq : Z
}.

(** The [Database] handle together with the schema it talks to. *)
Record Database : Type := mkDatabase {
  is_connected : bool;
  interactions : option Table
}.

(** The two statements the source executes:
    [CREATE TABLE IF NOT EXISTS interactions (...)] and
    [INSERT INTO interactions(user_id, input_text, ai_response, source)
     VALUES (:uid, :inp, :resp, :src)]. *)
Inductive Statement : Type :=
| CREATE_TABLE_IF_NOT_EXISTS_interactions
| INSERT_INTO_interactions (uid : Z) (inp resp src : string).

(** The one query the source fetches:
    [SELECT * FROM interactions ORDER BY id DESC LIMIT 10]. *)
Inductive Query : Type :=
| SELECT_FROM_interactions_ORDER_BY_id_DESC_LIMIT_10.

(** ** Redis *)

(** A stored value and the instant (server clock, seconds) it expires at. *)
Record Entry : Type := mkEntry { value : string; expires_at : Z }.

Record Redis : Type := mkRedis { kv : gmap string Entry }.

(** ** Groq *)

Record Message : Type := mkMessage { role : string; content : string }.
Record Choice : Type := mkChoice { message : Message }.
Record ChatCompletion : Type := mkChatCompletion { choices : list Choice }.

Record Groq : Type := mkGroq { api_key : string }.

(** ** Calls to the external services, in the order they are made *)

Inductive Event : Type :=
| Call_redis_get (name : string)
| Call_redis_setex (name : string) (time : Z) (val : string)
| Call_groq_create (messages : list Message) (model : string)
| Call_database_connect
| Call_database_disconnect
| Call_database_execute (query : Statement)
| Call_database_fetch_all (query : Query).

(** ** The process state: the module-level globals and the call trace *)

Record World : Type := mkWorld {
  redis_client : option Redis;
  groq_client : option Groq;
  database : Database;
  trace : list Event
}.

(** ** What the outside world does during one handler run

    A field [..._error] set to [Some msg] makes that call raise
    [Exception msg]; every handler makes each of these calls at most once. *)
Record Env : Type := mkEnv {
  now_start : Z;                   (* first [datetime.now()], microseconds *)
  now_end : Z;                     (* second [datetime.now()], microseconds *)
  redis_time : Z;                  (* the Redis server clock, seconds *)
  redis_get_error : option string;
  redis_setex_error : option string;
  groq_create : list Message → string → Exn + ChatCompletion;
  db_connect_error : option string;
  db_disconnect_error : option string;
  db_execute_error : option string;
  db_fetch_all_error : option string;
  db_now : Z                       (* PostgreSQL's [NOW()] *)
}.

(** ** The monad of handlers: state and exceptions *)

Inductive Outcome (A : Type) : Type :=
| Return (a : A)
| Raise (e : Exn).
Arguments Return {A} a.
Arguments Raise {A} e.

Definition M (A : Type) : Type := World → Outcome A * World.

Definition ret {A} (a : A) : M A := λ w, (Return a, w).

Definition bind {A B} (m : M A) (k : A → M B) : M B :=
  λ w, match m w with
       | (Return a, w1) => k a w1
       | (Raise e, w1) => (Raise e, w1)
       end.

Definition raise {A} (e : Exn) : M A := λ w, (Raise e, w).

(** [try: body except Exception as e: handler e]. *)
Definition try_except {A} (body : M A) (handler : Exn → M A) : M A :=
  λ w, match body w with
       | (Return a, w1) => (Return a, w1)
       | (Raise e, w1) => handler e w1
       end.

Definition get_world : M World := λ w, (Return w, w).

(** The world after one more call, after the cache changed, after the
    database changed. *)
Definition add_event (ev : Event) (w : World) : World :=
  {| redis_client := redis_client w; groq_client := groq_client w;
     database := database w; trace := trace w ++ [ev] |}.

Definition put_redis_client (r : option Redis) (w : World) : World :=
  {| redis_client := r; groq_client := groq_client w;
     database := database w; trace := trace w |}.

Definition put_database (d : Database) (w : World) : World :=
  {| redis_client := redis_client w; groq_client := groq_client w;
     database := d; trace := trace w |}.

Definition emit (ev : Event) : M unit := λ w, (Return tt, add_event ev w).

Definition set_redis_client (r : option Redis) : M unit :=
  λ w, (Return tt, put_redis_client r w).

Definition set_database (d : Database) : M unit :=
  λ w, (Return tt, put_database d w).

(** stdpp's [x ← m; k] and [m;; k] notations for [M]. *)
#[global] Instance M_ret : MRet M := @ret.
#[global] Instance M_bind : MBind M := λ A B k m, bind m k.

(** Raise when the environment injects a failure at this call. *)
Definition fault (err : option string) : M unit :=
  match err with
  | Some msg => raise (Exception msg)
  | None => ret tt
  end.

(** ** Python truthiness of the values the handlers test *)

(** [if s:] for a [str]. *)
Definition truthy (s : string) : bool :=
  match s with
  | EmptyString => false
  | String _ _ => true
  end.

(** [if x:] for an [Optional[str]]. *)
Definition truthy_opt (x : option string) : bool :=
  match x with
  | Some s => truthy s
  | None => false
  end.

(** ** Module initialisation (lines 31-47) *)

(** [try: redis_client = redis.Redis.from_url(...) except Exception:
    redis_client = None]. *)
Definition init_redis_client (from_url : Exn + Redis) : option Redis :=
  match from_url with
  | inr r => Some r
  | inl _ => None
  end.

(** [if GROQ_API_KEY: groq_client = Groq(api_key=GROQ_API_KEY) else:
    groq_client = None], with [GROQ_API_KEY = os.getenv("GROQ_API_KEY")]. *)
Definition init_groq_client (GROQ_API_KEY : option string) : option Groq :=
  match GROQ_API_KEY with
  | Some key => if truthy key then Some {| api_key := key |} else None
  | None => None
  end.

(** The state of the process once the module is loaded. *)
Definition module_init (from_url : Exn + Redis) (GROQ_API_KEY : option string)
    (schema : option Table) : World :=
  {| redis_client := init_redis_client from_url;
     groq_client := init_groq_client GROQ_API_KEY;
     database := {| is_connected := false; interactions := schema |};
     trace := [] |}.

(** ** The Redis client *)

(** The value a key holds at instant [now], if it has not expired. *)
Definition live_value (now : Z) (r : Redis) (name : string) : option string :=
  match kv r !! name with
  | Some e => if now <? expires_at e then Some (value e) else None
  | None => None
  end.

(** [redis_client.get(name)] on the client [r]. *)
Definition redis_get (env : Env) (r : Redis) (name : string) : M (option string) :=
  emit (Call_redis_get name);;
  fault (redis_get_error env);;
  mret (live_value (redis_time env) r name).

(** [redis_client.setex(name, time, value)] on the client [r]. *)
Definition redis_setex (env : Env) (r : Redis) (name : string) (time : Z)
    (val : string) : M unit :=
  emit (Call_redis_setex name time val);;
  fault (redis_setex_error env);;
  set_redis_client
    (Some {| kv := <[name := {| value := val;
                                expires_at := redis_time env + time |}]> (kv r) |}).

(** ** The Groq client *)

(** [groq_client.chat.completions.create(messages=..., model=...)]. *)
Definition groq_chat_completions_create (env : Env) (messages : list Message)
    (model : string) : M ChatCompletion :=
  emit (Call_groq_create messages model);;
  match groq_create env messages model with
  | inl e => raise e
  | inr completion => mret completion
  end.

(** [chat_completion.choices[0].message.content]; indexing an empty list
    raises [IndexError]. *)
Definition first_choice_content (chat_completion : ChatCompletion) : M string :=
  match choices chat_completion with
  | c :: _ => mret (content (message c))
  | [] => raise (Exception "list index out of range")
  end.

(** ** The database *)

(** The range of PostgreSQL's [INTEGER]. *)
Definition fits_INTEGER (z : Z) : bool := (-2147483648 <=? z) && (z <=? 2147483647).

(** A value fits [VARCHAR(20)] when it has at most 20 characters. *)
Definition fits_VARCHAR_20 (s : string) : bool := (String.length s <=? 20)%nat.

(** PostgreSQL refuses a character string that holds the character of code
    0 ([U+0000]), in a [TEXT] column as in a [VARCHAR] one. *)
Fixpoint fits_TEXT (s : string) : bool :=
  match s with
  | EmptyString => true
  | String c s' => negb (Ascii.eqb c Ascii.zero) && fits_TEXT s'
  end.

Definition id_taken (new_id : Z) (t : Table) : bool :=
  existsb (λ r, Interaction.id r =? new_id) (rows t).

(** [await database.connect()]. *)
Definition database_connect (env : Env) : M unit :=
  emit Call_database_connect;;
  fault (db_connect_error env);;
  w ← get_world;
  set_database {| is_connected := true; interactions := interactions (database w) |}.

(** [await database.disconnect()]. *)
Definition database_disconnect (env : Env) : M unit :=
  emit Call_database_disconnect;;
  fault (db_disconnect_error env);;
  w ← get_world;
  set_database {| is_connected := false; interactions := interactions (database w) |}.

(** The handle must be connected before a statement is sent. *)
Definition require_connection : M unit :=
  w ← get_world;
  if is_connected (database w) then mret tt
  else raise (Exception "DatabaseBackend is not running").

(** The table a statement reads or writes; PostgreSQL rejects the statement
    when the relation does not exist. *)
Definition require_interactions : M Table :=
  w ← get_world;
  match interactions (database w) with
  | Some t => mret t
  | None => raise (Exception "relation interactions does not exist")
  end.

Definition set_interactions (t : Table) : M unit :=
  w ← get_world;
  set_database {| is_connected := is_connected (database w); interactions := Some t |}.

(** [await database.execute(query)].  [INSERT] draws the next [id] from the
    sequence of the [SERIAL] column, which ends at the greatest [INTEGER]
    and stays advanced when the key turns out to be taken, and stamps the
    row with [NOW()]. *)
Definition database_execute (env : Env) (query : Statement) : M unit :=
  emit (Call_database_execute query);;
  fault (db_execute_error env);;
  require_connection;;
  match query with
  | CREATE_TABLE_IF_NOT_EXISTS_interactions =>
      w ← get_world;
      match interactions (database w) with
      | Some _ => mret tt
      | None => set_interactions {| rows := []; id_seq := 0 |}
      end
  | INSERT_INTO_interactions uid inp resp src =>
      t ← require_interactions;
      if negb (fits_INTEGER uid) then raise (Exception "integer out of range")
      else if negb (fits_TEXT inp && fits_TEXT resp && fits_TEXT src)
      then raise (Exception "invalid byte sequence for encoding UTF8: 0x00")
      else if negb (fits_VARCHAR_20 src)
      then raise (Exception "value too long for type character varying(20)")
      else
        let new_id := id_seq t + 1 in
        if negb (fits_INTEGER new_id)
        then raise (Exception "nextval: reached maximum value of sequence")
        else
        set_interactions {| rows := rows t; id_seq := new_id |};;
        if id_taken new_id t
        then raise (Exception "duplicate key value violates unique constraint")
        else
          set_interactions
            {| rows := rows t ++
                 [ {| Interaction.id := new_id;
                      Interaction.user_id := uid;
                      Interaction.input_text := inp;
                      Interaction.ai_response := resp;
                      Interaction.source := src;
                      Interaction.timestamp := db_now env |} ];
               id_seq := new_id |}
  end.

(** [ORDER BY id DESC]: [r1] comes no later than [r2]. *)
Definition id_desc (r1 r2 : Interaction.t) : Prop :=
  Interaction.id r2 ≤ Interaction.id r1.

#[global] Instance id_desc_dec : RelDecision id_desc.
Proof. intros r1 r2. unfold id_desc. apply _. Defined.

(** [await database.fetch_all(query)]. *)
Definition database_fetch_all (env : Env) (query : Query) : M (list Interaction.t) :=
  emit (Call_database_fetch_all query);;
  fault (db_fetch_all_error env);;
  require_connection;;
  t ← require_interactions;
  match query with
  | SELECT_FROM_interactions_ORDER_BY_id_DESC_LIMIT_10 =>
      mret (take 10 (merge_sort id_desc (rows t)))
  end.

(** ** Lifecycle events *)

(** [startup]: connect, then create the table if it does not exist; an
    exception of either step is caught (and logged). *)
Definition startup (env : Env) : M unit :=
  try_except
    (database_connect env;;
     let query := CREATE_TABLE_IF_NOT_EXISTS_interactions in
     database_execute env query)
    (λ e, mret tt).

(** [shutdown]. *)
Definition shutdown (env : Env) : M unit :=
  database_disconnect env.

(** ** Endpoints *)

Definition system_prompt : string :=
  "You are a helpful and concise AI assistant for Vandri.ai.".

(** The [messages] and [model] arguments of the completion request. *)
Definition request_messages (query : UserQuery.t) : list Message :=
  [ {| role := "system"; content := system_prompt |};
    {| role := "user"; content := UserQuery.text query |} ].

Definition request_model : string := "llama-3.3-70b-versatile".

(** 1. CACHE LAYER (lines 113-118): the new values of [source] and
    [response_text]. *)
Definition cache_layer (env : Env) (query : UserQuery.t)
    (source response_text : string) : M (string * string) :=
  w ← get_world;
  match redis_client w with
  | Some r =>
      cached_response ← redis_get env r (UserQuery.text query);
      match cached_response with
      | Some s =>
          if truthy s then mret ("cache (Redis)", s)
          else mret (source, response_text)
      | None => mret (source, response_text)
      end
  | None => mret (source, response_text)
  end.

(** 2. INFERENCE LAYER (lines 121-146). *)
Definition inference_layer (env : Env) (query : UserQuery.t)
    (source response_text : string) : M (string * string) :=
  if negb (truthy response_text) then
    w ← get_world;
    match groq_client w with
    | None => raise (HTTPException 500 "LLM service not configured.")
    | Some _ =>
        let source := "llm (Groq)" in
        chat_completion ←
          groq_chat_completions_create env (request_messages query) request_model;
        response_text ← first_choice_content chat_completion;
        w ← get_world;
        match redis_client w with
        | Some r => redis_setex env r (UserQuery.text query) 3600 response_text
        | None => mret tt
        end;;
        mret (source, response_text)
    end
  else mret (source, response_text).

(** 3. PERSISTENCE LAYER (lines 150-158). *)
Definition persistence_layer (env : Env) (query : UserQuery.t)
    (source response_text : string) : M unit :=
  database_execute env
    (INSERT_INTO_interactions (UserQuery.user_id query) (UserQuery.text query)
       response_text source).

(** The body of the [try] block of [chat_endpoint]. *)
Definition chat_endpoint_body (env : Env) (query : UserQuery.t) : M AgentResponse.t :=
  let start_time := now_start env in
  let source := "unknown" in
  let response_text := EmptyString in
  '(source, response_text) ← cache_layer env query source response_text;
  '(source, response_text) ← inference_layer env query source response_text;
  persistence_layer env query source response_text;;
  let process_time := Qmake (now_end env - start_time) 1000000 in
  mret {| AgentResponse.response := response_text;
          AgentResponse.source := source;
          AgentResponse.latency_seconds := process_time |}.

(** [POST /chat]. *)
Definition chat_endpoint (env : Env) (query : UserQuery.t) : M AgentResponse.t :=
  try_except (chat_endpoint_body env query)
    (λ e, raise (HTTPException 500 (str e))).

(** [GET /analytics]. *)
Definition get_analytics (env : Env) : M (list Interaction.t) :=
  try_except
    (database_fetch_all env SELECT_FROM_interactions_ORDER_BY_id_DESC_LIMIT_10)
    (λ e, raise (HTTPException 500 (str e))).

(** ** Observations on worlds and traces *)

Definition is_inference_call (ev : Event) : bool :=
  match ev with
  | Call_groq_create _ _ => true
  | _ => false
  end.

(** The number of calls made to the inference backend, that is, of calls
    of [chat.completions.create]. *)
Fixpoint inference_calls (t : list Event) : nat :=
  match t with
  | [] => 0%nat
  | ev :: t' => ((if is_inference_call ev then 1 else 0) + inference_calls t')%nat
  end.

(** The rows of the interaction log ([[]] while the table does not exist). *)
Definition log_rows (w : World) : list Interaction.t :=
  match interactions (database w) with
  | Some t => rows t
  | None => []
  end.

(** The cache holds a live value for [name]. *)
Definition cached (env : Env) (w : World) (name : string) : option string :=
  match redis_client w with
  | Some r => live_value (redis_time env) r name
  | None => None
  end.

(** The row an accepted [INSERT] adds to table [t]. *)
Definition new_row (env : Env) (t : Table) (uid : Z) (inp resp src : string) :
    Interaction.t :=
  {| Interaction.id := id_seq t + 1;
     Interaction.user_id := uid;
     Interaction.input_text := inp;
     Interaction.ai_response := resp;
     Interaction.source := src;
     Interaction.timestamp := db_now env |}.

(** The log store accepts an [INSERT] of [inp] and [resp] for user [uid]:
    the call does not fail, the handle is connected, the table exists,
    [uid] is in range, the two texts hold no [U+0000], and the next
    identifier is within the sequence and free. *)
Definition insert_accepted (env : Env) (db : Database) (uid : Z)
    (inp resp : string) : bool :=
  match db_execute_error env, interactions db with
  | None, Some t =>
      is_connected db && fits_INTEGER uid && fits_TEXT inp && fits_TEXT resp &&
      fits_INTEGER (id_seq t + 1) && negb (id_taken (id_seq t + 1) t)
  | _, _ => false
  end.

(** The first two layers of [chat_endpoint]: where the answer comes from. *)
Definition resolution (env : Env) (query : UserQuery.t) : M (string * string) :=
  '(source, response_text) ← cache_layer env query "unknown" EmptyString;
  inference_layer env query source response_text.

(** The envelope [chat_endpoint] returns for an answer and its source. *)
Definition envelope (env : Env) (source response_text : string) : AgentResponse.t :=
  {| AgentResponse.response := response_text;
     AgentResponse.source := source;
     AgentResponse.latency_seconds := Qmake (now_end env - now_start env) 1000000 |}.

(** The world after the row of a request is logged in table [t]. *)
Definition logged (env : Env) (query : UserQuery.t) (source response_text : string)
    (t : Table) (w : World) : World :=
  put_database
    {| is_connected := true;
       interactions :=
         Some {| rows := rows t ++
                   [new_row env t (UserQuery.user_id query) (UserQuery.text query)
                      response_text source];
                 id_seq := id_seq t + 1 |} |}
    (add_event
       (Call_database_execute
          (INSERT_INTO_interactions (UserQuery.user_id query) (UserQuery.text query)
             response_text source)) w).

(** ** Concrete scenarios *)

(** An environment in which the model answers [answer] and the given calls
    fail. *)
Definition env_with (answer : string)
    (get_error setex_error connect_error execute_error fetch_all_error : option string) :
    Env :=
  {| now_start := 0; now_end := 1500; redis_time := 100;
     redis_get_error := get_error; redis_setex_error := setex_error;
     groq_create := λ _ _,
       inr {| choices := [ {| message := {| role := "assistant"; content := answer |} |} ] |};
     db_connect_error := connect_error; db_disconnect_error := None;
     db_execute_error := execute_error; db_fetch_all_error := fetch_all_error;
     db_now := 7 |}.

(** An environment in which no call fails. *)
Definition quiet_env (answer : string) : Env :=
  env_with answer None None None None None.

(** Everything configured, the cache and the log empty. *)
Definition empty_world : World :=
  {| redis_client := Some {| kv := ∅ |};
     groq_client := Some {| api_key := "gsk" |};
     database := {| is_connected := true;
                    interactions := Some {| rows := []; id_seq := 0 |} |};
     trace := [] |}.

(** The cache already holds an answer to ["hi"]. *)
Definition warm_world : World :=
  {| redis_client :=
       Some {| kv := {[ "hi" := {| value := "Hello there"; expires_at := 3700 |} ]} |};
     groq_client := Some {| api_key := "gsk" |};
     database := {| is_connected := true;
                    interactions := Some {| rows := []; id_seq := 0 |} |};
     trace := [] |}.

(** The cache holds the empty string under ["hi"]. *)
Definition blank_world : World :=
  {| redis_client :=
       Some {| kv := {[ "hi" := {| value := EmptyString; expires_at := 3700 |} ]} |};
     groq_client := Some {| api_key := "gsk" |};
     database := {| is_connected := true;
                    interactions := Some {| rows := []; id_seq := 0 |} |};
     trace := [] |}.


(** No inference credential; the cache is empty. *)
Definition unconfigured_world : World :=
  {| redis_client := Some {| kv := ∅ |};
     groq_client := None;
     database := {| is_connected := true;
                    interactions := Some {| rows := []; id_seq := 0 |} |};
     trace := [] |}.

(** The Redis client could not be built when the module was loaded. *)
Definition cacheless_world : World :=
  {| redis_client := None;
     groq_client := Some {| api_key := "gsk" |};
     database := {| is_connected := true;
                    interactions := Some {| rows := []; id_seq := 0 |} |};
     trace := [] |}.

(** The table was never created. *)
Definition tableless_world : World :=
  {| redis_client := Some {| kv := ∅ |};
     groq_client := Some {| api_key := "gsk" |};
     database := {| is_connected := false; interactions := None |};
     trace := [] |}.

(** A log of twelve interactions, kept in no particular order. *)
Definition row_with_id (i : Z) : Interaction.t :=
  {| Interaction.id := i; Interaction.user_id := 1; Interaction.input_text := "hi";
     Interaction.ai_response := "Hello there"; Interaction.source := "llm (Groq)";
     Interaction.timestamp := i |}.

Definition busy_rows : list Interaction.t :=
  row_with_id <$> [3; 1; 2; 12; 5; 4; 7; 6; 9; 8; 11; 10].

Definition busy_world : World :=
  {| redis_client := Some {| kv := ∅ |};
     groq_client := Some {| api_key := "gsk" |};
     database :=
       {| is_connected := true;
          interactions :=
            Some {| rows := busy_rows; id_seq := 12 |} |};
     trace := [] |}.

Definition hi : UserQuery.t := {| UserQuery.user_id := 1; UserQuery.text := "hi" |}.
Definition hi_from_2 : UserQuery.t := {| UserQuery.user_id := 2; UserQuery.text := "hi" |}.

Definition outcome_source (out : Outcome AgentResponse.t) : option string :=
  match out with
  | Return resp => Some (AgentResponse.source resp)
  | Raise _ => None
  end.

(** ** Further observations and scenarios *)

(** The entry the cache keeps under [name], expired or not. *)
Definition cache_entry (w : World) (name : string) : option Entry :=
  match redis_client w with
  | Some r => kv r !! name
  | None => None
  end.

(** The number of statements sent to the database with [execute]. *)
Fixpoint execute_calls (t : list Event) : nat :=
  match t with
  | [] => 0%nat
  | Call_database_execute _ :: t' => S (execute_calls t')
  | _ :: t' => execute_calls t'
  end.

(** What [id SERIAL PRIMARY KEY] maintains as long as rows are only added
    through the sequence: identifiers are unique and none is ahead of the
    sequence. *)
Definition table_wf (t : Table) : Prop :=
  NoDup (Interaction.id <$> rows t) ∧
  Forall (λ r, Interaction.id r ≤ id_seq t) (rows t).

Definition database_wf (db : Database) : Prop :=
  match interactions db with
  | Some t => table_wf t
  | None => True
  end.

(** The inference backend raises. *)
Definition env_groq_raises (msg : string) : Env :=
  {| now_start := 0; now_end := 1500; redis_time := 100;
     redis_get_error := None; redis_setex_error := None;
     groq_create := λ _ _, inl (Exception msg);
     db_connect_error := None; db_disconnect_error := None;
     db_execute_error := None; db_fetch_all_error := None;
     db_now := 7 |}.

(** The inference backend answers with no choice at all. *)
Definition env_groq_no_choice : Env :=
  {| now_start := 0; now_end := 1500; redis_time := 100;
     redis_get_error := None; redis_setex_error := None;
     groq_create := λ _ _, inr {| choices := [] |};
     db_connect_error := None; db_disconnect_error := None;
     db_execute_error := None; db_fetch_all_error := None;
     db_now := 7 |}.

(** A quiet environment at instant [now] of the Redis clock. *)
Definition quiet_env_at (now : Z) (answer : string) : Env :=
  {| now_start := 0; now_end := 1500; redis_time := now;
     redis_get_error := None; redis_setex_error := None;
     groq_create := λ _ _,
       inr {| choices := [ {| message := {| role := "assistant"; content := answer |} |} ] |};
     db_connect_error := None; db_disconnect_error := None;
     db_execute_error := None; db_fetch_all_error := None;
     db_now := 7 |}.

(** The cache is warm but the database was never connected. *)
Definition disconnected_world : World :=
  {| redis_client :=
       Some {| kv := {[ "hi" := {| value := "Hello there"; expires_at := 3700 |} ]} |};
     groq_client := Some {| api_key := "gsk" |};
     database := {| is_connected := false;
                    interactions := Some {| rows := []; id_seq := 0 |} |};
     trace := [] |}.

(** A user id that does not fit a 32-bit [INTEGER]. *)
Definition hi_from_far : UserQuery.t :=
  {| UserQuery.user_id := 2147483648; UserQuery.text := "hi" |}.

Definition bye : UserQuery.t := {| UserQuery.user_id := 1; UserQuery.text := "bye" |}.

(** A query whose text is the one character [U+0000]. *)
Definition nul_query : UserQuery.t :=
  {| UserQuery.user_id := 1; UserQuery.text := String Ascii.zero EmptyString |}.

(** The sequence of identifiers has handed out its last value. *)
Definition full_world : World :=
  {| redis_client := Some {| kv := ∅ |};
     groq_client := Some {| api_key := "gsk" |};
     database := {| is_connected := true;
                    interactions := Some {| rows := []; id_seq := 2147483647 |} |};
     trace := [] |}.

(** * Properties *)

(** ** Running the monad *)

Ltac unfold_m :=
  unfold fault, emit, get_world, set_redis_client, set_database, try_except,
    mbind, M_bind, mret, M_ret, bind, ret, raise in *.

Lemma bind_Return {A B} (m : M A) (k : A → M B) w a w1 :
  m w = (Return a, w1) → (m ≫= k) w = k a w1.
Proof. intros Hm. unfold_m. by rewrite Hm. Qed.

Lemma bind_Raise {A B} (m : M A) (k : A → M B) w e w1 :
  m w = (Raise e, w1) → (m ≫= k) w = (Raise e, w1).
Proof. intros Hm. unfold_m. by rewrite Hm. Qed.

Lemma bind_inv_Return {A B} (m : M A) (k : A → M B) w b w2 :
  (m ≫= k) w = (Return b, w2) →
  ∃ a w1, m w = (Return a, w1) ∧ k a w1 = (Return b, w2).
Proof.
  unfold_m. destruct (m w) as [[a|e] w1]; intros Hk; [eauto | discriminate].
Qed.

(** ** Traces *)

Lemma inference_calls_app t1 t2 :
  inference_calls (t1 ++ t2) = (inference_calls t1 + inference_calls t2)%nat.
Proof. induction t1 as [|ev t1 IH]; simpl; [done | rewrite IH; lia]. Qed.

(** ** The cache layer *)

Section cache_layer.
Context (env : Env) (query : UserQuery.t) (source response_text : string).

Lemma cache_layer_no_client w :
  redis_client w = None →
  cache_layer env query source response_text w = (Return (source, response_text), w).
Proof. intros Hr. unfold cache_layer. unfold_m. by rewrite Hr. Qed.

Lemma cache_layer_get_raises w r msg :
  redis_client w = Some r →
  redis_get_error env = Some msg →
  cache_layer env query source response_text w =
    (Raise (Exception msg), add_event (Call_redis_get (UserQuery.text query)) w).
Proof.
  intros Hr Hg. unfold cache_layer, redis_get. unfold_m. by rewrite Hr, Hg.
Qed.

Lemma cache_layer_hit w v :
  cached env w (UserQuery.text query) = Some v →
  truthy v = true →
  redis_get_error env = None →
  cache_layer env query source response_text w =
    (Return ("cache (Redis)", v), add_event (Call_redis_get (UserQuery.text query)) w).
Proof.
  unfold cached. destruct (redis_client w) as [r|] eqn:Hr; [|done].
  intros Hv Ht Hg. unfold cache_layer, redis_get. unfold_m.
  rewrite Hr, Hg, Hv. destruct v; [discriminate | done].
Qed.

Lemma cache_layer_miss w r :
  redis_client w = Some r →
  truthy_opt (cached env w (UserQuery.text query)) = false →
  redis_get_error env = None →
  cache_layer env query source response_text w =
    (Return (source, response_text),
     add_event (Call_redis_get (UserQuery.text query)) w).
Proof.
  unfold cached. intros Hr. rewrite Hr. intros Hv Hg.
  unfold cache_layer, redis_get. unfold_m. rewrite Hr, Hg.
  destruct (live_value _ _ _) as [[|c v]|]; [done | discriminate | done].
Qed.

(** The layer never touches the database or the client handles. *)
Lemma cache_layer_frame w out w1 :
  cache_layer env query source response_text w = (out, w1) →
  database w1 = database w ∧ redis_client w1 = redis_client w ∧
  groq_client w1 = groq_client w ∧
  inference_calls (trace w1) = inference_calls (trace w).
Proof.
  unfold cache_layer, redis_get. unfold_m. intros Hrun.
  repeat (case_match; simplify_eq/=);
    rewrite ?inference_calls_app; simpl; split_and!; (done || lia).
Qed.
End cache_layer.

(** ** The inference layer *)

Section inference_layer.
Context (env : Env) (query : UserQuery.t) (source response_text : string).

Lemma inference_layer_skipped w :
  truthy response_text = true →
  inference_layer env query source response_text w =
    (Return (source, response_text), w).
Proof. intros Ht. unfold inference_layer. by rewrite Ht. Qed.

Lemma inference_layer_unconfigured w :
  truthy response_text = false →
  groq_client w = None →
  inference_layer env query source response_text w =
    (Raise (HTTPException 500 "LLM service not configured."), w).
Proof.
  intros Ht Hg. unfold inference_layer. rewrite Ht. unfold_m. simpl.
  by rewrite Hg.
Qed.

Lemma inference_layer_stores w g r completion c cs :
  truthy response_text = false →
  groq_client w = Some g →
  groq_create env (request_messages query) request_model = inr completion →
  choices completion = c :: cs →
  redis_client w = Some r →
  redis_setex_error env = None →
  inference_layer env query source response_text w =
    (Return ("llm (Groq)", content (message c)),
     put_redis_client
       (Some {| kv := <[UserQuery.text query :=
                        {| value := content (message c);
                           expires_at := redis_time env + 3600 |}]> (kv r) |})
       (add_event (Call_redis_setex (UserQuery.text query) 3600 (content (message c)))
          (add_event (Call_groq_create (request_messages query) request_model) w))).
Proof.
  intros Ht Hg Hc Hcs Hr Hs.
  unfold inference_layer, groq_chat_completions_create, first_choice_content,
    redis_setex.
  rewrite Ht. unfold_m.
  by repeat (simpl; rewrite ?Hg, ?Hc, ?Hcs, ?Hr, ?Hs).
Qed.

Lemma inference_layer_no_cache w g completion c cs :
  truthy response_text = false →
  groq_client w = Some g →
  groq_create env (request_messages query) request_model = inr completion →
  choices completion = c :: cs →
  redis_client w = None →
  inference_layer env query source response_text w =
    (Return ("llm (Groq)", content (message c)),
     add_event (Call_groq_create (request_messages query) request_model) w).
Proof.
  intros Ht Hg Hc Hcs Hr.
  unfold inference_layer, groq_chat_completions_create, first_choice_content.
  rewrite Ht. unfold_m.
  by repeat (simpl; rewrite ?Hg, ?Hc, ?Hcs, ?Hr).
Qed.

Lemma inference_layer_setex_raises w g r completion c cs msg :
  truthy response_text = false →
  groq_client w = Some g →
  groq_create env (request_messages query) request_model = inr completion →
  choices completion = c :: cs →
  redis_client w = Some r →
  redis_setex_error env = Some msg →
  inference_layer env query source response_text w =
    (Raise (Exception msg),
     add_event (Call_redis_setex (UserQuery.text query) 3600 (content (message c)))
       (add_event (Call_groq_create (request_messages query) request_model) w)).
Proof.
  intros Ht Hg Hc Hcs Hr Hs.
  unfold inference_layer, groq_chat_completions_create, first_choice_content,
    redis_setex.
  rewrite Ht. unfold_m.
  by repeat (simpl; rewrite ?Hg, ?Hc, ?Hcs, ?Hr, ?Hs).
Qed.

(** The layer never touches the database; when it runs the completion it
    calls the backend once, and what it returns is then tagged
    ["llm (Groq)"]. *)
Lemma inference_layer_frame w out w1 :
  inference_layer env query source response_text w = (out, w1) →
  database w1 = database w ∧
  (truthy response_text = true →
     out = Return (source, response_text) ∧ w1 = w) ∧
  (truthy response_text = false →
     (∀ src txt, out = Return (src, txt) → src = "llm (Groq)") ∧
     (groq_client w = None → w1 = w) ∧
     (groq_client w ≠ None →
        inference_calls (trace w1) = S (inference_calls (trace w)))).
Proof.
  unfold inference_layer, groq_chat_completions_create, first_choice_content,
    redis_setex.
  unfold_m. destruct (truthy response_text) eqn:Ht; simpl; intros Hrun.
  - simplify_eq. by split_and!.
  - repeat (case_match; simplify_eq/=);
      rewrite ?inference_calls_app; simpl;
      (split_and!; [done | done | intros _; split_and!]);
      first [done | intros; simplify_eq; done | intros; lia].
Qed.
End inference_layer.

(** ** The persistence layer *)

Section persistence_layer.
Context (env : Env) (query : UserQuery.t) (source response_text : string).

Lemma persistence_layer_accepted w t :
  interactions (database w) = Some t →
  insert_accepted env (database w) (UserQuery.user_id query) (UserQuery.text query)
    response_text = true →
  fits_VARCHAR_20 source = true →
  fits_TEXT source = true →
  persistence_layer env query source response_text w =
    (Return (), logged env query source response_text t w).
Proof.
  unfold insert_accepted. intros Ht. rewrite Ht.
  destruct (db_execute_error env) eqn:He; [done|].
  intros (((((Hc & Hu)%andb_prop & Hi)%andb_prop & Hr)%andb_prop
            & Hseq)%andb_prop & Hid%negb_true_iff)%andb_prop Hs Hsrc.
  unfold persistence_layer, database_execute, require_connection,
    require_interactions, set_interactions.
  unfold_m.
  repeat (simpl; rewrite ?He, ?Ht, ?Hc, ?Hu, ?Hi, ?Hr, ?Hsrc, ?Hseq, ?Hid, ?Hs).
  unfold logged, new_row, put_database, add_event. by simpl.
Qed.

(** A row is logged exactly when the store accepts it. *)
Lemma persistence_layer_Return_inv w u w1 :
  persistence_layer env query source response_text w = (Return u, w1) →
  ∃ t, interactions (database w) = Some t ∧
       insert_accepted env (database w) (UserQuery.user_id query)
         (UserQuery.text query) response_text = true ∧
       w1 = logged env query source response_text t w.
Proof.
  unfold persistence_layer, database_execute, require_connection,
    require_interactions, set_interactions, insert_accepted.
  unfold_m. intros Hrun.
  repeat (case_match; simplify_eq/=).
  repeat match goal with
         | H : negb _ = false |- _ => apply negb_false_iff in H
         | H : _ && _ = true |- _ => apply andb_prop in H as [? ?]
         end.
  repeat match goal with H : _ = true |- _ => rewrite H; clear H end.
  match goal with Hid : id_taken _ _ = false |- _ => rewrite Hid end.
  eexists; split_and!; [done | done |].
  unfold logged, new_row, put_database, add_event. by simpl.
Qed.

(** When the store refuses the row the layer raises, and the rows are the
    ones there were. *)
Lemma persistence_layer_refused w :
  insert_accepted env (database w) (UserQuery.user_id query) (UserQuery.text query)
    response_text = false →
  ∃ e w1, persistence_layer env query source response_text w = (Raise e, w1) ∧
          log_rows w1 = log_rows w.
Proof.
  intros Hrefused.
  destruct (persistence_layer env query source response_text w) as [[u|e] w1] eqn:Hrun.
  - apply persistence_layer_Return_inv in Hrun as (t & _ & Hacc & _). congruence.
  - exists e, w1. split; [done|].
    revert Hrun.
    unfold persistence_layer, database_execute, require_connection,
      require_interactions, set_interactions, log_rows.
    unfold_m. intros Hrun.
    by repeat (case_match; simplify_eq/=).
Qed.
End persistence_layer.

(** ** The endpoint as resolution followed by logging *)

Section chat_endpoint.
Context (env : Env) (query : UserQuery.t).

Lemma chat_endpoint_resolution_raises w e w1 :
  resolution env query w = (Raise e, w1) →
  chat_endpoint env query w = (Raise (HTTPException 500 (str e)), w1).
Proof.
  unfold resolution, chat_endpoint, chat_endpoint_body. unfold_m.
  destruct (cache_layer env query _ _ w) as [[[src txt]|e0] w0]; simpl.
  - intros ->. done.
  - by intros [= -> ->].
Qed.

Lemma chat_endpoint_log_raises w source response_text w1 e w2 :
  resolution env query w = (Return (source, response_text), w1) →
  persistence_layer env query source response_text w1 = (Raise e, w2) →
  chat_endpoint env query w = (Raise (HTTPException 500 (str e)), w2).
Proof.
  unfold resolution, chat_endpoint, chat_endpoint_body. unfold_m.
  destruct (cache_layer env query _ _ w) as [[[src txt]|e0] w0]; simpl; [|done].
  intros -> Hlog. by rewrite Hlog.
Qed.

Lemma chat_endpoint_logged w source response_text w1 w2 :
  resolution env query w = (Return (source, response_text), w1) →
  persistence_layer env query source response_text w1 = (Return (), w2) →
  chat_endpoint env query w = (Return (envelope env source response_text), w2).
Proof.
  unfold resolution, chat_endpoint, chat_endpoint_body. unfold_m.
  destruct (cache_layer env query _ _ w) as [[[src txt]|e0] w0]; simpl; [|done].
  intros -> Hlog. by rewrite Hlog.
Qed.

Lemma chat_endpoint_Return_inv w resp w2 :
  chat_endpoint env query w = (Return resp, w2) →
  ∃ source response_text w1,
    resolution env query w = (Return (source, response_text), w1) ∧
    persistence_layer env query source response_text w1 = (Return (), w2) ∧
    resp = envelope env source response_text.
Proof.
  destruct (resolution env query w) as [[[src txt]|e] w1] eqn:Hres.
  - destruct (persistence_layer env query src txt w1) as [[[]|e] w2'] eqn:Hlog.
    + rewrite (chat_endpoint_logged _ _ _ _ _ Hres Hlog).
      intros [= <- <-]. by exists src, txt, w1.
    + by rewrite (chat_endpoint_log_raises _ _ _ _ _ _ Hres Hlog).
  - by rewrite (chat_endpoint_resolution_raises _ _ _ Hres).
Qed.

(** Every exception leaves the endpoint as an HTTP 500. *)
Lemma chat_endpoint_Raise_inv w e w2 :
  chat_endpoint env query w = (Raise e, w2) →
  ∃ detail, e = HTTPException 500 detail.
Proof.
  unfold chat_endpoint. unfold_m.
  destruct (chat_endpoint_body env query w) as [[resp|e0] w0]; [done|].
  intros [= <- <-]. eauto.
Qed.

(** Resolution leaves the database alone and tags its answer with one of
    the two provenance strings, both of which fit the [source] column. *)
Lemma resolution_frame w source response_text w1 :
  resolution env query w = (Return (source, response_text), w1) →
  database w1 = database w ∧
  (source = "cache (Redis)" ∨ source = "llm (Groq)") ∧
  fits_VARCHAR_20 source = true.
Proof.
  unfold resolution. intros ([src txt] & w0 & Hcache & Hinf)%bind_inv_Return.
  simpl in Hinf.
  pose proof (cache_layer_frame _ _ _ _ _ _ _ Hcache) as (Hdb0 & _).
  pose proof (inference_layer_frame _ _ _ _ _ _ _ Hinf) as (Hdb1 & Hskip & Hrun).
  assert (source = "cache (Redis)" ∨ source = "llm (Groq)") as Hsrc.
  { destruct (truthy txt) eqn:Ht.
    - destruct (Hskip eq_refl) as [[= -> ->] ->].
      left. revert Hcache. unfold cache_layer, redis_get. unfold_m.
      intros Hcache. by repeat (case_match; simplify_eq/=).
    - right. by eapply Hrun. }
  split_and!; [congruence | done | by destruct Hsrc as [-> | ->]].
Qed.

Lemma resolution_source_fits w source response_text w1 :
  resolution env query w = (Return (source, response_text), w1) →
  fits_TEXT source = true.
Proof.
  intros Hres. apply resolution_frame in Hres as (_ & [-> | ->] & _); done.
Qed.
End chat_endpoint.

(** ** Resolution, case by case *)

Section resolution.
Context (env : Env) (query : UserQuery.t).

Lemma resolution_hit w v :
  cached env w (UserQuery.text query) = Some v →
  truthy v = true →
  redis_get_error env = None →
  resolution env query w =
    (Return ("cache (Redis)", v), add_event (Call_redis_get (UserQuery.text query)) w).
Proof.
  intros Hv Ht Hg. unfold resolution.
  erewrite bind_Return by by apply cache_layer_hit.
  by apply inference_layer_skipped.
Qed.

Lemma resolution_miss_stores w r g completion c cs :
  redis_client w = Some r →
  truthy_opt (cached env w (UserQuery.text query)) = false →
  redis_get_error env = None →
  groq_client w = Some g →
  groq_create env (request_messages query) request_model = inr completion →
  choices completion = c :: cs →
  redis_setex_error env = None →
  resolution env query w =
    (Return ("llm (Groq)", content (message c)),
     put_redis_client
       (Some {| kv := <[UserQuery.text query :=
                        {| value := content (message c);
                           expires_at := redis_time env + 3600 |}]> (kv r) |})
       (add_event (Call_redis_setex (UserQuery.text query) 3600 (content (message c)))
          (add_event (Call_groq_create (request_messages query) request_model)
             (add_event (Call_redis_get (UserQuery.text query)) w)))).
Proof.
  intros Hr Hmiss Hget Hg Hc Hcs Hset. unfold resolution.
  erewrite bind_Return by by eapply cache_layer_miss.
  by eapply inference_layer_stores.
Qed.

Lemma resolution_no_cache w g completion c cs :
  redis_client w = None →
  groq_client w = Some g →
  groq_create env (request_messages query) request_model = inr completion →
  choices completion = c :: cs →
  resolution env query w =
    (Return ("llm (Groq)", content (message c)),
     add_event (Call_groq_create (request_messages query) request_model) w).
Proof.
  intros Hr Hg Hc Hcs. unfold resolution.
  erewrite bind_Return by by apply cache_layer_no_client.
  by eapply inference_layer_no_cache.
Qed.

Lemma resolution_unconfigured w :
  groq_client w = None →
  truthy_opt (cached env w (UserQuery.text query)) = false →
  ∃ e w1, resolution env query w = (Raise e, w1) ∧ database w1 = database w.
Proof.
  intros Hg Hmiss. unfold resolution.
  destruct (redis_client w) as [r|] eqn:Hr.
  - destruct (redis_get_error env) as [msg|] eqn:Hget.
    + erewrite bind_Raise by by eapply cache_layer_get_raises.
      by eexists _, _.
    + erewrite bind_Return by by eapply cache_layer_miss.
      simpl. rewrite inference_layer_unconfigured by done.
      by eexists _, _.
  - erewrite bind_Return by by apply cache_layer_no_client.
    simpl. rewrite inference_layer_unconfigured by done.
    by eexists _, _.
Qed.
End resolution.

(** ** Further facts on the layers *)

Section layers.
Context (env : Env) (query : UserQuery.t).

(** Resolution depends on the query through its text only. *)
Lemma resolution_text_only query' w :
  UserQuery.text query = UserQuery.text query' →
  resolution env query w = resolution env query' w.
Proof.
  intros Htext.
  unfold resolution, cache_layer, inference_layer, request_messages.
  by rewrite Htext.
Qed.

(** An answer tagged ["llm (Groq)"] has been stored under the text of the
    query, to expire 3600 seconds later. *)
Lemma resolution_llm_stored w r response_text w1 :
  redis_client w = Some r →
  resolution env query w = (Return ("llm (Groq)", response_text), w1) →
  redis_client w1 =
    Some {| kv := <[UserQuery.text query :=
                     {| value := response_text;
                        expires_at := redis_time env + 3600 |}]> (kv r) |}.
Proof.
  intros Hr.
  unfold resolution, cache_layer, redis_get, inference_layer,
    groq_chat_completions_create, first_choice_content, redis_setex.
  unfold_m. intros Hrun.
  by repeat (case_match; simplify_eq/=).
Qed.

(** A cache call that raises ends resolution with that exception. *)
Lemma resolution_get_raises w r msg :
  redis_client w = Some r →
  redis_get_error env = Some msg →
  resolution env query w =
    (Raise (Exception msg), add_event (Call_redis_get (UserQuery.text query)) w).
Proof.
  intros Hr Hget. unfold resolution.
  by erewrite bind_Raise by by eapply cache_layer_get_raises.
Qed.

Lemma resolution_setex_raises w r g completion c cs msg :
  redis_client w = Some r →
  truthy_opt (cached env w (UserQuery.text query)) = false →
  redis_get_error env = None →
  groq_client w = Some g →
  groq_create env (request_messages query) request_model = inr completion →
  choices completion = c :: cs →
  redis_setex_error env = Some msg →
  resolution env query w =
    (Raise (Exception msg),
     add_event (Call_redis_setex (UserQuery.text query) 3600 (content (message c)))
       (add_event (Call_groq_create (request_messages query) request_model)
          (add_event (Call_redis_get (UserQuery.text query)) w))).
Proof.
  intros Hr Hmiss Hget Hg Hc Hcs Hset. unfold resolution.
  erewrite bind_Return by by eapply cache_layer_miss.
  by eapply inference_layer_setex_raises.
Qed.

(** Whatever its outcome, the persistence layer makes one call, to the
    database, and leaves the cache alone. *)
Lemma persistence_layer_frame source response_text w out w1 :
  persistence_layer env query source response_text w = (out, w1) →
  redis_client w1 = redis_client w ∧
  inference_calls (trace w1) = inference_calls (trace w).
Proof.
  unfold persistence_layer, database_execute, require_connection,
    require_interactions, set_interactions.
  unfold_m. intros Hrun.
  repeat (case_match; simplify_eq/=);
    rewrite ?inference_calls_app; simpl; (split; [done | lia]).
Qed.

(** The endpoint ends where resolution raised or where logging ended. *)
Lemma chat_endpoint_cases w :
  (∃ e w1, resolution env query w = (Raise e, w1) ∧
           chat_endpoint env query w = (Raise (HTTPException 500 (str e)), w1)) ∨
  (∃ source response_text w1 out w2,
     resolution env query w = (Return (source, response_text), w1) ∧
     persistence_layer env query source response_text w1 = (out, w2) ∧
     chat_endpoint env query w =
       (match out with
        | Return _ => Return (envelope env source response_text)
        | Raise e => Raise (HTTPException 500 (str e))
        end, w2)).
Proof.
  destruct (resolution env query w) as [[[src txt]|e] w1] eqn:Hres.
  - right.
    destruct (persistence_layer env query src txt w1) as [[[]|e] w2] eqn:Hlog;
      exists src, txt, w1; eexists _, w2; (split_and!; [done | done |]).
    + by eapply chat_endpoint_logged.
    + by eapply chat_endpoint_log_raises.
  - left. exists e, w1. split; [done|]. by apply chat_endpoint_resolution_raises.
Qed.
End layers.

(** ** The [/chat] pipeline *)

(** The store accepts rows only into an existing table. *)
Lemma insert_accepted_table env db uid inp resp :
  insert_accepted env db uid inp resp = true → ∃ t, interactions db = Some t.
Proof.
  unfold insert_accepted.
  destruct (db_execute_error env); [done|].
  destruct (interactions db); [eauto | done].
Qed.

(** A hit, step by step: the lookup, then the [INSERT]. *)
Lemma chat_endpoint_hit env w query v t :
  cached env w (UserQuery.text query) = Some v →
  truthy v = true →
  redis_get_error env = None →
  interactions (database w) = Some t →
  insert_accepted env (database w) (UserQuery.user_id query) (UserQuery.text query)
    v = true →
  chat_endpoint env query w =
    (Return (envelope env "cache (Redis)" v),
     logged env query "cache (Redis)" v t
       (add_event (Call_redis_get (UserQuery.text query)) w)).
Proof.
  intros Hv Ht Hget Htab Hacc.
  eapply chat_endpoint_logged; [by apply resolution_hit|].
  by apply persistence_layer_accepted.
Qed.

(** C1, as the source has it: when the cache holds a live, non-empty value
    under the text of the query, the lookup does not fail and the log store
    accepts the row, [/chat] returns that value verbatim with source
    ["cache (Redis)"], and the inference backend is not called: the only
    calls are the lookup and the [INSERT]. *)
Theorem chat_cache_hit env w query v :
  cached env w (UserQuery.text query) = Some v →
  truthy v = true →
  redis_get_error env = None →
  insert_accepted env (database w) (UserQuery.user_id query) (UserQuery.text query)
    v = true →
  ∃ resp w',
    chat_endpoint env query w = (Return resp, w') ∧
    AgentResponse.response resp = v ∧
    AgentResponse.source resp = "cache (Redis)" ∧
    inference_calls (trace w') = inference_calls (trace w) ∧
    trace w' = trace w ++
      [ Call_redis_get (UserQuery.text query);
        Call_database_execute
          (INSERT_INTO_interactions (UserQuery.user_id query) (UserQuery.text query)
             v "cache (Redis)") ].
Proof.
  intros Hv Ht Hget Hacc.
  destruct (insert_accepted_table _ _ _ _ _ Hacc) as [t Htab].
  eexists _, _. split; [by apply (chat_endpoint_hit env w query v t)|].
  simpl. split_and!; [done | done | |].
  - rewrite !inference_calls_app. simpl. lia.
  - by rewrite <- app_assoc.
Qed.

Lemma chat_cache_hit_witness :
  ∃ resp w',
    chat_endpoint (quiet_env "unused") hi warm_world = (Return resp, w') ∧
    AgentResponse.response resp = "Hello there" ∧
    AgentResponse.source resp = "cache (Redis)" ∧
    inference_calls (trace w') = inference_calls (trace warm_world) ∧
    trace w' = trace warm_world ++
      [ Call_redis_get "hi";
        Call_database_execute
          (INSERT_INTO_interactions 1 "hi" "Hello there" "cache (Redis)") ].
Proof.
  apply (chat_cache_hit (quiet_env "unused") warm_world hi "Hello there");
    vm_compute; reflexivity.
Defined.

(** C1, as the specification words it, fails: on a cache hit in which
    nothing goes wrong the source field is ["cache (Redis)"], not
    ["cache"].  Nor does a key in the cache suffice for an envelope: under
    a key that holds the empty string the answer comes from inference, and
    when the log store refuses the row the cached answer is not returned. *)
Lemma chat_cache_hit_source_is_not_cache :
  (cached (quiet_env "unused") warm_world (UserQuery.text hi) = Some "Hello there" ∧
   outcome_source (fst (chat_endpoint (quiet_env "unused") hi warm_world)) =
     Some "cache (Redis)" ∧
   outcome_source (fst (chat_endpoint (quiet_env "unused") hi warm_world)) ≠
     Some "cache") ∧
  (cached (quiet_env "Fresh") blank_world (UserQuery.text hi) = Some EmptyString ∧
   fst (chat_endpoint (quiet_env "Fresh") hi blank_world) =
     Return (envelope (quiet_env "Fresh") "llm (Groq)" "Fresh")) ∧
  fst (chat_endpoint (env_with "unused" None None None (Some "connection lost") None)
         hi warm_world) =
    Raise (HTTPException 500 "connection lost").
Proof.
  vm_compute. split_and!; [reflexivity | reflexivity | discriminate | | |]; reflexivity.
Qed.

(** A miss with a working cache, step by step: the lookup, the completion,
    the write-through, then the [INSERT]. *)
Lemma chat_endpoint_miss_stores env w query r g completion c cs t :
  redis_client w = Some r →
  truthy_opt (cached env w (UserQuery.text query)) = false →
  redis_get_error env = None →
  groq_client w = Some g →
  groq_create env (request_messages query) request_model = inr completion →
  choices completion = c :: cs →
  redis_setex_error env = None →
  interactions (database w) = Some t →
  insert_accepted env (database w) (UserQuery.user_id query) (UserQuery.text query)
    (content (message c)) = true →
  chat_endpoint env query w =
    (Return (envelope env "llm (Groq)" (content (message c))),
     logged env query "llm (Groq)" (content (message c)) t
       (put_redis_client
          (Some {| kv := <[UserQuery.text query :=
                           {| value := content (message c);
                              expires_at := redis_time env + 3600 |}]> (kv r) |})
          (add_event
             (Call_redis_setex (UserQuery.text query) 3600 (content (message c)))
             (add_event (Call_groq_create (request_messages query) request_model)
                (add_event (Call_redis_get (UserQuery.text query)) w))))).
Proof.
  intros Hr Hmiss Hget Hg Hc Hcs Hset Htab Hacc.
  eapply chat_endpoint_logged; [by eapply resolution_miss_stores|].
  by apply persistence_layer_accepted.
Qed.

(** C2, as the source has it: when the cache client exists and holds no
    live, non-empty value under the text of the query, the inference
    backend is configured and answers with at least one choice, and neither
    cache call nor the log store fails, [/chat] calls the inference backend
    exactly once, stores the answer under the text of the query with an
    expiry 3600 seconds ahead, and returns it with source ["llm (Groq)"]. *)
Theorem chat_cache_miss env w query r g completion c cs :
  redis_client w = Some r →
  truthy_opt (cached env w (UserQuery.text query)) = false →
  redis_get_error env = None →
  groq_client w = Some g →
  groq_create env (request_messages query) request_model = inr completion →
  choices completion = c :: cs →
  redis_setex_error env = None →
  insert_accepted env (database w) (UserQuery.user_id query) (UserQuery.text query)
    (content (message c)) = true →
  ∃ resp w',
    chat_endpoint env query w = (Return resp, w') ∧
    AgentResponse.response resp = content (message c) ∧
    AgentResponse.source resp = "llm (Groq)" ∧
    inference_calls (trace w') = S (inference_calls (trace w)) ∧
    redis_client w' =
      Some {| kv := <[UserQuery.text query :=
                       {| value := content (message c);
                          expires_at := redis_time env + 3600 |}]> (kv r) |} ∧
    trace w' = trace w ++
      [ Call_redis_get (UserQuery.text query);
        Call_groq_create (request_messages query) request_model;
        Call_redis_setex (UserQuery.text query) 3600 (content (message c));
        Call_database_execute
          (INSERT_INTO_interactions (UserQuery.user_id query) (UserQuery.text query)
             (content (message c)) "llm (Groq)") ].
Proof.
  intros Hr Hmiss Hget Hg Hc Hcs Hset Hacc.
  destruct (insert_accepted_table _ _ _ _ _ Hacc) as [t Htab].
  eexists _, _.
  split; [by apply (chat_endpoint_miss_stores env w query r g completion c cs t)|].
  simpl. split_and!; [done | done | | done |].
  - rewrite !inference_calls_app. simpl. lia.
  - by rewrite <- !app_assoc.
Qed.

Lemma chat_cache_miss_witness :
  ∃ resp w',
    chat_endpoint (quiet_env "Hello there") hi empty_world = (Return resp, w') ∧
    AgentResponse.response resp = "Hello there" ∧
    AgentResponse.source resp = "llm (Groq)" ∧
    inference_calls (trace w') = S (inference_calls (trace empty_world)) ∧
    redis_client w' =
      Some {| kv := <["hi" := {| value := "Hello there"; expires_at := 100 + 3600 |}]> ∅ |} ∧
    trace w' = trace empty_world ++
      [ Call_redis_get "hi";
        Call_groq_create (request_messages hi) request_model;
        Call_redis_setex "hi" 3600 "Hello there";
        Call_database_execute
          (INSERT_INTO_interactions 1 "hi" "Hello there" "llm (Groq)") ].
Proof.
  apply (chat_cache_miss (quiet_env "Hello there") empty_world hi
           {| kv := ∅ |} {| api_key := "gsk" |}
           {| choices := [ {| message := {| role := "assistant";
                                            content := "Hello there" |} |} ] |}
           {| message := {| role := "assistant"; content := "Hello there" |} |} []);
    vm_compute; reflexivity.
Defined.

(** C2, as the specification words it, fails: on a cache miss in which
    nothing goes wrong the source field is ["llm (Groq)"], not
    ["inference"].  Nor does a miss suffice for an envelope: without an
    inference credential the request fails and the backend is not
    called. *)
Lemma chat_cache_miss_source_is_not_inference :
  (cached (quiet_env "Hello there") empty_world (UserQuery.text hi) = None ∧
   outcome_source (fst (chat_endpoint (quiet_env "Hello there") hi empty_world)) =
     Some "llm (Groq)" ∧
   outcome_source (fst (chat_endpoint (quiet_env "Hello there") hi empty_world)) ≠
     Some "inference") ∧
  (cached (quiet_env "Hello there") unconfigured_world (UserQuery.text hi) = None ∧
   fst (chat_endpoint (quiet_env "Hello there") hi unconfigured_world) =
     Raise (HTTPException 500 "500: LLM service not configured.") ∧
   inference_calls
     (trace (snd (chat_endpoint (quiet_env "Hello there") hi unconfigured_world))) = 0%nat).
Proof.
  vm_compute. split_and!; [reflexivity | reflexivity | discriminate | | |]; reflexivity.
Qed.

(** C3: every [/chat] request that returns an envelope has appended exactly
    one row to the log, also on a cache hit, and the row carries the user
    id and text of the request and the response text and source of the
    envelope. *)
Theorem chat_success_logs_one_record env query w resp w' :
  chat_endpoint env query w = (Return resp, w') →
  ∃ row,
    log_rows w' = log_rows w ++ [row] ∧
    Interaction.user_id row = UserQuery.user_id query ∧
    Interaction.input_text row = UserQuery.text query ∧
    Interaction.ai_response row = AgentResponse.response resp ∧
    Interaction.source row = AgentResponse.source resp.
Proof.
  intros (src & txt & w1 & Hres & Hlog & ->)%chat_endpoint_Return_inv.
  apply resolution_frame in Hres as (Hdb & _ & _).
  apply persistence_layer_Return_inv in Hlog as (t & Htab & _ & ->).
  exists (new_row env t (UserQuery.user_id query) (UserQuery.text query) txt src).
  split_and!; try done.
  unfold log_rows. by rewrite <- Hdb, Htab.
Qed.

Lemma chat_success_logs_one_record_witness :
  ∃ row,
    log_rows (snd (chat_endpoint (quiet_env "unused") hi warm_world)) =
      log_rows warm_world ++ [row] ∧
    Interaction.user_id row = 1 ∧
    Interaction.input_text row = "hi" ∧
    Interaction.ai_response row = "Hello there" ∧
    Interaction.source row = "cache (Redis)".
Proof.
  apply (chat_success_logs_one_record (quiet_env "unused") hi warm_world
           (envelope (quiet_env "unused") "cache (Redis)" "Hello there")
           (snd (chat_endpoint (quiet_env "unused") hi warm_world))).
  vm_compute. reflexivity.
Defined.

(** C5: when the inference backend is not configured and the cache gives no
    non-empty value for the text of the query, [/chat] fails with HTTP 500
    and the database, hence the log, is left as it was. *)
Theorem chat_unconfigured_inference env w query :
  groq_client w = None →
  truthy_opt (cached env w (UserQuery.text query)) = false →
  ∃ detail w',
    chat_endpoint env query w = (Raise (HTTPException 500 detail), w') ∧
    database w' = database w ∧
    log_rows w' = log_rows w.
Proof.
  intros Hg Hmiss.
  destruct (resolution_unconfigured env query w Hg Hmiss) as (e & w1 & Hres & Hdb).
  exists (str e), w1. split_and!; [| done |].
  - by apply chat_endpoint_resolution_raises.
  - unfold log_rows. by rewrite Hdb.
Qed.

Lemma chat_unconfigured_inference_witness :
  ∃ detail w',
    chat_endpoint (quiet_env "unused") hi unconfigured_world =
      (Raise (HTTPException 500 detail), w') ∧
    database w' = database unconfigured_world ∧
    log_rows w' = log_rows unconfigured_world.
Proof.
  apply (chat_unconfigured_inference (quiet_env "unused") unconfigured_world hi);
    vm_compute; reflexivity.
Defined.

(** C6: when an answer was obtained, from the cache or from inference, and
    the append to the log raises, [/chat] fails with HTTP 500 instead of
    returning the answer; and whenever [/chat] does return an envelope, its
    answer is in the log: there is no answered-but-not-logged success. *)
Theorem chat_log_failure_is_an_error env query w :
  (∀ source response_text w1 e w2,
     resolution env query w = (Return (source, response_text), w1) →
     persistence_layer env query source response_text w1 = (Raise e, w2) →
     chat_endpoint env query w = (Raise (HTTPException 500 (str e)), w2)) ∧
  (∀ source response_text w1,
     resolution env query w = (Return (source, response_text), w1) →
     insert_accepted env (database w) (UserQuery.user_id query)
       (UserQuery.text query) response_text = false →
     ∃ detail w2,
       chat_endpoint env query w = (Raise (HTTPException 500 detail), w2) ∧
       log_rows w2 = log_rows w) ∧
  (∀ resp w',
     chat_endpoint env query w = (Return resp, w') →
     insert_accepted env (database w) (UserQuery.user_id query)
       (UserQuery.text query) (AgentResponse.response resp) = true ∧
     ∃ row, log_rows w' = log_rows w ++ [row] ∧
            Interaction.ai_response row = AgentResponse.response resp).
Proof.
  split_and!.
  - intros src txt w1 e w2. apply chat_endpoint_log_raises.
  - intros src txt w1 Hres Hrefused.
    pose proof (resolution_frame _ _ _ _ _ _ Hres) as (Hdb & _ & _).
    rewrite <- Hdb in Hrefused.
    destruct (persistence_layer_refused env query src txt w1 Hrefused)
      as (e & w2 & Hlog & Hrows).
    exists (str e), w2. split.
    + by eapply chat_endpoint_log_raises.
    + rewrite Hrows. unfold log_rows. by rewrite Hdb.
  - intros resp w' (src & txt & w1 & Hres & Hlog & ->)%chat_endpoint_Return_inv.
    apply resolution_frame in Hres as (Hdb & _ & _).
    apply persistence_layer_Return_inv in Hlog as (t & Htab & Hacc & ->).
    rewrite Hdb in Hacc, Htab. split; [done|].
    exists (new_row env t (UserQuery.user_id query) (UserQuery.text query) txt src).
    split; [|done].
    unfold log_rows. simpl. by rewrite Htab.
Qed.

Lemma chat_log_failure_is_an_error_witness :
  chat_endpoint (env_with "unused" None None None (Some "connection lost") None)
    hi warm_world =
  (Raise (HTTPException 500 "connection lost"),
   add_event
     (Call_database_execute
        (INSERT_INTO_interactions 1 "hi" "Hello there" "cache (Redis)"))
     (add_event (Call_redis_get "hi") warm_world)).
Proof.
  apply (proj1 (chat_log_failure_is_an_error
                  (env_with "unused" None None None (Some "connection lost") None)
                  hi warm_world)
           "cache (Redis)" "Hello there" (add_event (Call_redis_get "hi") warm_world)
           (Exception "connection lost"));
    vm_compute; reflexivity.
Defined.

(** What the handler does with a cache call that raises: the exception
    leaves [/chat] as an HTTP 500 carrying its text. *)
Lemma chat_endpoint_get_raises env w query r msg :
  redis_client w = Some r →
  redis_get_error env = Some msg →
  chat_endpoint env query w =
    (Raise (HTTPException 500 msg),
     add_event (Call_redis_get (UserQuery.text query)) w).
Proof.
  intros Hr Hget.
  by apply (chat_endpoint_resolution_raises env query w (Exception msg)),
    (resolution_get_raises env query w r).
Qed.

Lemma chat_endpoint_setex_raises env w query r g completion c cs msg :
  redis_client w = Some r →
  truthy_opt (cached env w (UserQuery.text query)) = false →
  redis_get_error env = None →
  groq_client w = Some g →
  groq_create env (request_messages query) request_model = inr completion →
  choices completion = c :: cs →
  redis_setex_error env = Some msg →
  ∃ w',
    chat_endpoint env query w = (Raise (HTTPException 500 msg), w') ∧
    log_rows w' = log_rows w.
Proof.
  intros Hr Hmiss Hget Hg Hc Hcs Hset.
  pose proof (resolution_setex_raises env query w r g completion c cs msg
                Hr Hmiss Hget Hg Hc Hcs Hset) as Hres.
  eexists. split;
    [by apply (chat_endpoint_resolution_raises env query w (Exception msg)) | done].
Qed.

(** What the guards on [redis_client] do achieve: a Redis client that could
    not be built when the module was loaded leaves [redis_client] at
    [None]; a request then skips the lookup and the store, makes no cache
    call at all, and completes through the inference and log path. *)
Lemma chat_endpoint_without_cache env w query g completion c cs :
  redis_client w = None →
  groq_client w = Some g →
  groq_create env (request_messages query) request_model = inr completion →
  choices completion = c :: cs →
  insert_accepted env (database w) (UserQuery.user_id query) (UserQuery.text query)
    (content (message c)) = true →
  (∀ e key schema, redis_client (module_init (inl e) key schema) = None) ∧
  ∃ w',
    chat_endpoint env query w =
      (Return (envelope env "llm (Groq)" (content (message c))), w') ∧
    redis_client w' = None ∧
    trace w' = trace w ++
      [ Call_groq_create (request_messages query) request_model;
        Call_database_execute
          (INSERT_INTO_interactions (UserQuery.user_id query)
             (UserQuery.text query) (content (message c)) "llm (Groq)") ].
Proof.
  intros Hr Hg Hc Hcs Hacc. split; [done|].
  pose proof (resolution_no_cache env query w g completion c cs Hr Hg Hc Hcs) as Hres.
  match type of Hres with _ = (_, ?w0) => set (w1 := w0) in * end.
  destruct (insert_accepted_table _ _ _ _ _ Hacc) as [t Htab].
  exists (logged env query "llm (Groq)" (content (message c)) t w1).
  split_and!; [| done |].
  - eapply chat_endpoint_logged; [done|].
    by apply persistence_layer_accepted.
  - simpl. by rewrite <- app_assoc.
Qed.

Lemma chat_endpoint_without_cache_cacheless :
  (∀ e key schema, redis_client (module_init (inl e) key schema) = None) ∧
  ∃ w',
    chat_endpoint (quiet_env "Hello there") hi cacheless_world =
      (Return (envelope (quiet_env "Hello there") "llm (Groq)" "Hello there"), w') ∧
    redis_client w' = None ∧
    trace w' = trace cacheless_world ++
      [ Call_groq_create (request_messages hi) request_model;
        Call_database_execute
          (INSERT_INTO_interactions 1 "hi" "Hello there" "llm (Groq)") ].
Proof.
  apply (chat_endpoint_without_cache (quiet_env "Hello there") cacheless_world hi
           {| api_key := "gsk" |}
           {| choices := [ {| message := {| role := "assistant";
                                            content := "Hello there" |} |} ] |}
           {| message := {| role := "assistant"; content := "Hello there" |} |} []);
    vm_compute; reflexivity.
Defined.

(** C4 does not hold of the code.  The module builds the Redis client
    under a [try] that falls back to [None], and the handler tests
    [redis_client] before the lookup and before the store, so as to run
    without a cache; but a client that was built and whose lookup raises
    (Redis cannot be reached) is not taken for a miss.  With the query
    [{user_id: 1, text: "hi"}], everything else working and the lookup
    raising ["Connection refused"], [/chat] fails with HTTP 500, calls no
    inference backend and logs nothing; the same request, with the same
    failing lookup, completes through inference and log when
    [redis_client] is [None]. *)
Theorem chat_cache_lookup_failure_is_surfaced :
  (fst (chat_endpoint (env_with "Hello there" (Some "Connection refused")
                         None None None None) hi empty_world) =
     Raise (HTTPException 500 "Connection refused") ∧
   trace (snd (chat_endpoint (env_with "Hello there" (Some "Connection refused")
                                None None None None) hi empty_world)) =
     [ Call_redis_get "hi" ] ∧
   log_rows (snd (chat_endpoint (env_with "Hello there" (Some "Connection refused")
                                   None None None None) hi empty_world)) = []) ∧
  (fst (chat_endpoint (env_with "Hello there" (Some "Connection refused")
                         None None None None) hi cacheless_world) =
     Return (envelope (env_with "Hello there" (Some "Connection refused")
                         None None None None) "llm (Groq)" "Hello there") ∧
   log_rows (snd (chat_endpoint (env_with "Hello there" (Some "Connection refused")
                                   None None None None) hi cacheless_world)) =
     [ new_row (env_with "Hello there" (Some "Connection refused")
                  None None None None) {| rows := []; id_seq := 0 |}
         1 "hi" "Hello there" "llm (Groq)" ]).
Proof. vm_compute. by split_and!. Qed.




(** C10: for two queries with the same text, whatever their user ids, the
    cache is read and written under the same key: resolution is the same
    computation, with the same calls, outcome and resulting cache.  So a
    hit returns the cached text to whoever asks, and the answer inferred
    and stored for one user is served verbatim, from the cache and without
    a new inference call, to another user who asks the same text before it
    expires. *)
Theorem chat_cache_shared_across_users query1 query2 :
  UserQuery.text query1 = UserQuery.text query2 →
  (∀ env w, resolution env query1 w = resolution env query2 w) ∧
  (∀ env w v,
     cached env w (UserQuery.text query1) = Some v →
     truthy v = true →
     redis_get_error env = None →
     insert_accepted env (database w) (UserQuery.user_id query2)
       (UserQuery.text query2) v = true →
     ∃ resp w',
       chat_endpoint env query2 w = (Return resp, w') ∧
       AgentResponse.response resp = v ∧
       AgentResponse.source resp = "cache (Redis)") ∧
  (∀ env1 env2 w r resp1 w1,
     redis_client w = Some r →
     chat_endpoint env1 query1 w = (Return resp1, w1) →
     AgentResponse.source resp1 = "llm (Groq)" →
     truthy (AgentResponse.response resp1) = true →
     redis_get_error env2 = None →
     redis_time env2 < redis_time env1 + 3600 →
     insert_accepted env2 (database w1) (UserQuery.user_id query2)
       (UserQuery.text query2) (AgentResponse.response resp1) = true →
     ∃ resp2 w2,
       chat_endpoint env2 query2 w1 = (Return resp2, w2) ∧
       AgentResponse.response resp2 = AgentResponse.response resp1 ∧
       AgentResponse.source resp2 = "cache (Redis)" ∧
       inference_calls (trace w2) = inference_calls (trace w1)).
Proof.
  intros Htext. split_and!.
  - intros env w. by apply resolution_text_only.
  - intros env w v Hv Ht Hget Hacc. rewrite Htext in Hv.
    destruct (insert_accepted_table _ _ _ _ _ Hacc) as [t Htab].
    eexists _, _.
    by split; [apply (chat_endpoint_hit env w query2 v t)|].
  - intros env1 env2 w r resp1 w1 Hr Hrun1 Hsrc1 Ht Hget Hlive Hacc.
    apply chat_endpoint_Return_inv in Hrun1 as (src & txt & w0 & Hres & Hlog & ->).
    simpl in Hsrc1, Ht. subst src.
    pose proof (resolution_llm_stored env1 query1 w r txt w0 Hr Hres) as Hstored.
    apply persistence_layer_frame in Hlog as [Hredis _].
    assert (cached env2 w1 (UserQuery.text query2) = Some txt) as Hv.
    { unfold cached, live_value. rewrite Hredis, Hstored. simpl.
      rewrite Htext, lookup_insert_eq. simpl.
      by rewrite (proj2 (Z.ltb_lt _ _) Hlive). }
    destruct (insert_accepted_table _ _ _ _ _ Hacc) as [t Htab].
    eexists _, _.
    split; [by apply (chat_endpoint_hit env2 w1 query2 txt t)|].
    simpl. split_and!; [done | done |].
    rewrite !inference_calls_app. simpl. lia.
Qed.

Lemma chat_cache_shared_across_users_witness :
  ∃ resp2 w2,
    chat_endpoint (quiet_env "Other answer") hi_from_2
      (snd (chat_endpoint (quiet_env "Hello there") hi empty_world)) =
      (Return resp2, w2) ∧
    AgentResponse.response resp2 = "Hello there" ∧
    AgentResponse.source resp2 = "cache (Redis)" ∧
    inference_calls (trace w2) =
      inference_calls (trace (snd (chat_endpoint (quiet_env "Hello there") hi empty_world))).
Proof.
  apply (proj2 (proj2 (chat_cache_shared_across_users hi hi_from_2 eq_refl))
           (quiet_env "Hello there") (quiet_env "Other answer") empty_world
           {| kv := ∅ |}
           (envelope (quiet_env "Hello there") "llm (Groq)" "Hello there"));
    vm_compute; reflexivity.
Defined.

(** ** The [/analytics] endpoint *)

Lemma id_desc_total : Total id_desc.
Proof. intros r1 r2. unfold id_desc. lia. Qed.

Lemma id_desc_transitive : Transitive id_desc.
Proof. intros r1 r2 r3. unfold id_desc. lia. Qed.

(** The first [n] elements of a sorted list are sorted and come before
    every element left out. *)
Lemma take_sorted_split (n : nat) (l : list Interaction.t) :
  StronglySorted id_desc l →
  StronglySorted id_desc (take n l) ∧
  Forall (λ old, Forall (λ r, Interaction.id old ≤ Interaction.id r) (take n l))
    (drop n l).
Proof.
  intros Hsorted. rewrite <- (take_drop n l) in Hsorted.
  apply StronglySorted_app in Hsorted as (Hcross & Htake & _).
  split; [done|].
  apply Forall_forall. intros old Hold.
  apply Forall_forall. intros r Hr.
  exact (Hcross r old Hr Hold).
Qed.

Lemma get_analytics_connected env w t :
  db_fetch_all_error env = None →
  is_connected (database w) = true →
  interactions (database w) = Some t →
  get_analytics env w =
    (Return (take 10 (merge_sort id_desc (rows t))),
     add_event
       (Call_database_fetch_all SELECT_FROM_interactions_ORDER_BY_id_DESC_LIMIT_10) w).
Proof.
  intros Hfetch Hconn Htab.
  unfold get_analytics, database_fetch_all, require_connection, require_interactions.
  unfold_m. by repeat (simpl; rewrite ?Hfetch, ?Hconn, ?Htab).
Qed.

(** C7: for every content of the interaction log (the store being reachable
    and the table created), [/analytics] returns at most 10 records, sorted
    by decreasing identifier, and they are the newest: every record left
    out has an identifier no greater than any record returned.  The log is
    not changed. *)
Theorem analytics_newest_first env w t :
  db_fetch_all_error env = None →
  is_connected (database w) = true →
  interactions (database w) = Some t →
  ∃ records w',
    get_analytics env w = (Return records, w') ∧
    (length records ≤ 10)%nat ∧
    length records = (10 `min` length (rows t))%nat ∧
    StronglySorted id_desc records ∧
    (∃ older,
       rows t ≡ₚ records ++ older ∧
       Forall (λ old, Forall (λ r, Interaction.id old ≤ Interaction.id r) records)
         older) ∧
    database w' = database w.
Proof.
  intros Hfetch Hconn Htab.
  eexists _, _. split; [by apply get_analytics_connected|].
  pose proof (@StronglySorted_merge_sort _ id_desc _ id_desc_transitive
                id_desc_total (rows t)) as Hsorted.
  destruct (take_sorted_split 10 _ Hsorted) as [Htake Hdrop].
  assert (length (take 10 (merge_sort id_desc (rows t))) =
          (10 `min` length (rows t))%nat) as Hlen.
  { rewrite length_take. by rewrite (merge_sort_Permutation id_desc (rows t)). }
  split_and!; [lia | done | done | | done].
  exists (drop 10 (merge_sort id_desc (rows t))). split; [|done].
  by rewrite take_drop, merge_sort_Permutation.
Qed.

Lemma analytics_newest_first_witness :
  ∃ records w',
    get_analytics (quiet_env "unused") busy_world = (Return records, w') ∧
    (length records ≤ 10)%nat ∧
    length records = (10 `min` length busy_rows)%nat ∧
    StronglySorted id_desc records ∧
    (∃ older,
       busy_rows ≡ₚ records ++ older ∧
       Forall (λ old, Forall (λ r, Interaction.id old ≤ Interaction.id r) records)
         older) ∧
    database w' = database busy_world.
Proof.
  apply (analytics_newest_first (quiet_env "unused") busy_world
           {| rows := busy_rows; id_seq := 12 |});
    vm_compute; reflexivity.
Defined.

Example analytics_of_twelve :
  fst (get_analytics (quiet_env "unused") busy_world) =
    Return (row_with_id <$> [12; 11; 10; 9; 8; 7; 6; 5; 4; 3]).
Proof. vm_compute. reflexivity. Qed.

(** When the store cannot answer, the endpoint fails with HTTP 500. *)
Lemma get_analytics_Raise_inv env w e w' :
  get_analytics env w = (Raise e, w') → ∃ detail, e = HTTPException 500 detail.
Proof.
  unfold get_analytics. unfold_m.
  destruct (database_fetch_all env _ w) as [[l|e0] w0]; [done|].
  intros [= <- <-]. eauto.
Qed.

(** ** Start-up *)

Section startup.
Context (env : Env).

(** The schema [CREATE TABLE IF NOT EXISTS] leaves behind. *)
Lemma startup_succeeds w :
  db_connect_error env = None →
  db_execute_error env = None →
  startup env w =
    (Return (),
     put_database
       {| is_connected := true;
          interactions :=
            Some (default {| rows := []; id_seq := 0 |} (interactions (database w))) |}
       (add_event (Call_database_execute CREATE_TABLE_IF_NOT_EXISTS_interactions)
          (add_event Call_database_connect w))).
Proof.
  intros Hconn Hexec.
  unfold startup, database_connect, database_execute, require_connection,
    set_interactions.
  unfold_m. repeat (simpl; rewrite ?Hconn, ?Hexec).
  by destruct (interactions (database w)) as [t|] eqn:Htab.
Qed.

(** The hook catches every exception. *)
Lemma startup_never_raises w : ∃ w', startup env w = (Return (), w').
Proof.
  unfold startup, try_except.
  match goal with
  | |- context [match ?body with _ => _ end] =>
      destruct body as [[[]|e] w1]; eauto
  end.
Qed.

(** A failed connection or a failed statement leaves the schema as it
    was. *)
Lemma startup_fails w :
  db_connect_error env ≠ None ∨ db_execute_error env ≠ None →
  interactions (database (snd (startup env w))) = interactions (database w).
Proof.
  unfold startup, database_connect, database_execute, require_connection,
    set_interactions.
  unfold_m. intros Hfail.
  destruct (db_connect_error env) as [m1|]; [done|].
  destruct (db_execute_error env) as [m2|]; [done|].
  by destruct Hfail.
Qed.
End startup.

(** C8, as the source has it: [startup] connects and issues
    [CREATE TABLE IF NOT EXISTS].  It always completes without an
    exception.  When both calls succeed the [interactions] table exists
    afterwards, created empty if it was absent and unchanged if it was
    present, and running [startup] again changes nothing in the database.
    When either call fails the exception is caught and the schema is left
    as it was. *)
Theorem startup_ensures_schema env w :
  ∃ w',
    startup env w = (Return (), w') ∧
    (db_connect_error env = None →
     db_execute_error env = None →
     is_connected (database w') = true ∧
     interactions (database w') =
       Some (default {| rows := []; id_seq := 0 |} (interactions (database w))) ∧
     database (snd (startup env w')) = database w') ∧
    (db_connect_error env ≠ None ∨ db_execute_error env ≠ None →
     interactions (database w') = interactions (database w)).
Proof.
  destruct (startup_never_raises env w) as [w' Hrun].
  exists w'. split; [done|]. split.
  - intros Hconn Hexec.
    rewrite (startup_succeeds env w Hconn Hexec) in Hrun.
    injection Hrun as <-.
    split_and!; [done | done |].
    rewrite (startup_succeeds env _ Hconn Hexec). by simpl.
  - intros Hfail. pose proof (startup_fails env w Hfail) as Hkeep.
    by rewrite Hrun in Hkeep.
Qed.

Lemma startup_ensures_schema_witness :
  is_connected (database (snd (startup (quiet_env "unused") tableless_world))) = true ∧
  interactions (database (snd (startup (quiet_env "unused") tableless_world))) =
    Some {| rows := []; id_seq := 0 |} ∧
  interactions (database (snd (startup (quiet_env "unused") busy_world))) =
    Some {| rows := busy_rows; id_seq := 12 |}.
Proof.
  destruct (startup_ensures_schema (quiet_env "unused") tableless_world)
    as (w1 & Hrun1 & Hok1 & _).
  destruct (startup_ensures_schema (quiet_env "unused") busy_world)
    as (w2 & Hrun2 & Hok2 & _).
  rewrite Hrun1, Hrun2. simpl.
  destruct (Hok1 eq_refl eq_refl) as (Hc1 & Ht1 & _).
  destruct (Hok2 eq_refl eq_refl) as (_ & Ht2 & _).
  split_and!; [exact Hc1 | exact Ht1 | exact Ht2].
Defined.

(** C8, as the specification words it, fails: when the database cannot be
    reached, [startup] still completes, and the [interactions] table does
    not exist afterwards. *)
Lemma startup_completes_without_table :
  fst (startup (env_with "unused" None None (Some "Connection refused") None None)
         tableless_world) = Return () ∧
  interactions
    (database (snd (startup (env_with "unused" None None (Some "Connection refused")
                               None None) tableless_world))) = None.
Proof. vm_compute. by split. Qed.

(** * Further properties of the handlers *)

Lemma execute_calls_app t1 t2 :
  execute_calls (t1 ++ t2) = (execute_calls t1 + execute_calls t2)%nat.
Proof.
  induction t1 as [|ev t1 IH]; simpl; [done|].
  destruct ev; simpl; rewrite IH; lia.
Qed.

Section frames.
Context (env : Env) (query : UserQuery.t).

(** Whatever its outcome, resolution leaves the database and the inference
    handle alone, calls the inference backend at most once, and writes to
    the cache under the text of the query only. *)
Lemma resolution_any_frame w out w1 :
  resolution env query w = (out, w1) →
  database w1 = database w ∧
  groq_client w1 = groq_client w ∧
  (inference_calls (trace w1) ≤ S (inference_calls (trace w)))%nat ∧
  execute_calls (trace w1) = execute_calls (trace w) ∧
  (redis_client w = None → redis_client w1 = None) ∧
  (∀ name, name ≠ UserQuery.text query → cache_entry w1 name = cache_entry w name).
Proof.
  unfold resolution, cache_layer, redis_get, inference_layer,
    groq_chat_completions_create, first_choice_content, redis_setex, cache_entry.
  unfold_m. intros Hrun.
  repeat (case_match; simplify_eq/=);
    rewrite ?inference_calls_app, ?execute_calls_app; simpl;
    split_and!; try done; try lia;
    intros name Hname; rewrite ?lookup_insert_ne by done; congruence.
Qed.

(** An answer that comes from the cache leaves the cache as it was. *)
Lemma resolution_cache_untouched w response_text w1 :
  resolution env query w = (Return ("cache (Redis)", response_text), w1) →
  redis_client w1 = redis_client w ∧
  cached env w (UserQuery.text query) = Some response_text ∧
  truthy response_text = true ∧
  inference_calls (trace w1) = inference_calls (trace w).
Proof.
  unfold resolution, cache_layer, redis_get, inference_layer,
    groq_chat_completions_create, first_choice_content, redis_setex, cached.
  unfold_m. intros Hrun.
  repeat (case_match; simplify_eq/=);
    rewrite ?inference_calls_app; simpl; split_and!; (done || lia).
Qed.

(** An answer that comes from inference was not in the cache, and cost one
    call. *)
Lemma resolution_llm_called w response_text w1 :
  resolution env query w = (Return ("llm (Groq)", response_text), w1) →
  truthy_opt (cached env w (UserQuery.text query)) = false ∧
  inference_calls (trace w1) = S (inference_calls (trace w)).
Proof.
  unfold resolution, cache_layer, redis_get, inference_layer,
    groq_chat_completions_create, first_choice_content, redis_setex, cached.
  unfold_m. intros Hrun.
  repeat (case_match; simplify_eq/=);
    try match goal with
        | Ht : truthy ?s = true, Hn : negb (truthy ?s) = true |- _ =>
            rewrite Ht in Hn; discriminate
        end;
    rewrite ?inference_calls_app; simpl; split_and!;
    first [done | lia
          | match goal with
            | Hv : live_value _ _ _ = _ |- _ => rewrite Hv; simpl; done
            end].
Qed.

(** Whatever its outcome, the persistence layer sends one statement, and
    when it raises the rows are the ones there were. *)
Lemma persistence_layer_any_frame source response_text w out w1 :
  persistence_layer env query source response_text w = (out, w1) →
  execute_calls (trace w1) = S (execute_calls (trace w)) ∧
  groq_client w1 = groq_client w ∧
  (∀ e, out = Raise e → log_rows w1 = log_rows w).
Proof.
  unfold persistence_layer, database_execute, require_connection,
    require_interactions, set_interactions, log_rows.
  unfold_m. intros Hrun.
  repeat (case_match; simplify_eq/=);
    rewrite ?execute_calls_app; simpl;
    (split_and!; [lia | done |]); intros e' He'; by simplify_eq.
Qed.
End frames.

(** ** [/chat]: what every request does and never does *)

(** A failed request leaves the rows as they were. *)
Lemma chat_failure_rows env query w e w' :
  chat_endpoint env query w = (Raise e, w') → log_rows w' = log_rows w.
Proof.
  intros Hrun.
  destruct (chat_endpoint_cases env query w)
    as [(e0 & w1 & Hres & Hrun')|(src & txt & w1 & out & w2 & Hres & Hlog & Hrun')];
    rewrite Hrun in Hrun'.
  - injection Hrun' as -> ->.
    apply resolution_any_frame in Hres as (Hdb & _).
    unfold log_rows. by rewrite Hdb.
  - destruct out as [u|e1]; [done|]. injection Hrun' as -> ->.
    apply resolution_any_frame in Hres as (Hdb & _).
    apply persistence_layer_any_frame in Hlog as (_ & _ & Hrows).
    rewrite (Hrows e1 eq_refl). unfold log_rows. by rewrite Hdb.
Qed.

(** X1: whenever [/chat] fails, for whatever reason, the caller gets an
    HTTP 500, the log has no new row, and no row of the log is changed. *)
Theorem chat_failure_logs_nothing env query w e w' :
  chat_endpoint env query w = (Raise e, w') →
  (∃ detail, e = HTTPException 500 detail) ∧ log_rows w' = log_rows w.
Proof.
  intros Hrun. split.
  - by eapply chat_endpoint_Raise_inv.
  - by eapply chat_failure_rows.
Qed.

Lemma chat_failure_logs_nothing_witness :
  (∃ detail, HTTPException 500 "rate limit" = HTTPException 500 detail) ∧
  log_rows (snd (chat_endpoint (env_groq_raises "rate limit") hi empty_world)) =
    log_rows empty_world.
Proof.
  apply (chat_failure_logs_nothing (env_groq_raises "rate limit") hi empty_world
           (HTTPException 500 "rate limit")
           (snd (chat_endpoint (env_groq_raises "rate limit") hi empty_world))).
  vm_compute. reflexivity.
Defined.

(** X2: the source of a returned envelope tells where the text came from.
    It is ["cache (Redis)"] exactly when the text is the live value the
    cache held, in which case the inference backend was not called and the
    cache was not written; otherwise it is ["llm (Groq)"], the cache had no
    non-empty value and the backend was called once.  The initial
    ["unknown"] never reaches the caller. *)
Theorem chat_source_is_truthful env query w resp w' :
  chat_endpoint env query w = (Return resp, w') →
  (AgentResponse.source resp = "cache (Redis)" ∧
   cached env w (UserQuery.text query) = Some (AgentResponse.response resp) ∧
   truthy (AgentResponse.response resp) = true ∧
   inference_calls (trace w') = inference_calls (trace w) ∧
   redis_client w' = redis_client w) ∨
  (AgentResponse.source resp = "llm (Groq)" ∧
   truthy_opt (cached env w (UserQuery.text query)) = false ∧
   inference_calls (trace w') = S (inference_calls (trace w))).
Proof.
  intros (src & txt & w1 & Hres & Hlog & ->)%chat_endpoint_Return_inv.
  apply persistence_layer_frame in Hlog as [Hredis Hcalls].
  destruct (resolution_frame _ _ _ _ _ _ Hres) as (_ & [-> | ->] & _); simpl.
  - left. apply resolution_cache_untouched in Hres as (Hr & Hv & Ht & Hc).
    split_and!; [done | done | done | congruence | congruence].
  - right. apply resolution_llm_called in Hres as (Hmiss & Hc).
    split_and!; [done | done | congruence].
Qed.

Lemma chat_source_is_truthful_witness :
  (AgentResponse.source (envelope (quiet_env "unused") "cache (Redis)" "Hello there") =
     "cache (Redis)" ∧
   cached (quiet_env "unused") warm_world (UserQuery.text hi) =
     Some (AgentResponse.response
             (envelope (quiet_env "unused") "cache (Redis)" "Hello there")) ∧
   truthy (AgentResponse.response
             (envelope (quiet_env "unused") "cache (Redis)" "Hello there")) = true ∧
   inference_calls (trace (snd (chat_endpoint (quiet_env "unused") hi warm_world))) =
     inference_calls (trace warm_world) ∧
   redis_client (snd (chat_endpoint (quiet_env "unused") hi warm_world)) =
     redis_client warm_world) ∨
  (AgentResponse.source (envelope (quiet_env "unused") "cache (Redis)" "Hello there") =
     "llm (Groq)" ∧
   truthy_opt (cached (quiet_env "unused") warm_world (UserQuery.text hi)) = false ∧
   inference_calls (trace (snd (chat_endpoint (quiet_env "unused") hi warm_world))) =
     S (inference_calls (trace warm_world))).
Proof.
  apply (chat_source_is_truthful (quiet_env "unused") hi warm_world
           (envelope (quiet_env "unused") "cache (Redis)" "Hello there")
           (snd (chat_endpoint (quiet_env "unused") hi warm_world))).
  vm_compute. reflexivity.
Defined.

(** X3: the handler has no loop of its own around its calls: whatever
    happens, one request calls [groq_client.chat.completions.create] at
    most once and [database.execute] at most once.  (What the SDK client
    sends to the service within one call of [create], its own retries
    included, is not part of the handler and is not counted.) *)
Theorem chat_calls_each_port_at_most_once env query w :
  (inference_calls (trace (snd (chat_endpoint env query w))) ≤
     S (inference_calls (trace w)))%nat ∧
  (execute_calls (trace (snd (chat_endpoint env query w))) ≤
     S (execute_calls (trace w)))%nat.
Proof.
  destruct (chat_endpoint_cases env query w)
    as [(e0 & w1 & Hres & ->)|(src & txt & w1 & out & w2 & Hres & Hlog & ->)];
    simpl;
    apply resolution_any_frame in Hres as (_ & _ & Hcalls & Hexec & _).
  - split; [done | lia].
  - apply persistence_layer_frame in Hlog as Hframe.
    apply persistence_layer_any_frame in Hlog as (Hexec' & _ & _).
    destruct Hframe as [_ Hcalls'].
    split; lia.
Qed.

(** X4: a request reads and writes the cache under the text of its own
    query only: the entry under any other key is what it was, and a missing
    cache client stays missing. *)
Theorem chat_cache_frame env query w name :
  name ≠ UserQuery.text query →
  cache_entry (snd (chat_endpoint env query w)) name = cache_entry w name ∧
  (redis_client w = None → redis_client (snd (chat_endpoint env query w)) = None).
Proof.
  intros Hname.
  destruct (chat_endpoint_cases env query w)
    as [(e0 & w1 & Hres & ->)|(src & txt & w1 & out & w2 & Hres & Hlog & ->)];
    simpl;
    apply resolution_any_frame in Hres as (_ & _ & _ & _ & Hnone & Hframe).
  - by split; [apply Hframe|].
  - apply persistence_layer_frame in Hlog as [Hredis _].
    split.
    + rewrite <- (Hframe name Hname). unfold cache_entry. by rewrite Hredis.
    + intros Hr. rewrite Hredis. by apply Hnone.
Qed.

Lemma chat_cache_frame_witness :
  cache_entry (snd (chat_endpoint (quiet_env "See you") bye warm_world)) "hi" =
    cache_entry warm_world "hi" ∧
  (redis_client warm_world = None →
   redis_client (snd (chat_endpoint (quiet_env "See you") bye warm_world)) = None).
Proof.
  apply (chat_cache_frame (quiet_env "See you") bye warm_world "hi").
  vm_compute. discriminate.
Defined.

(** ** [/chat]: failures of the cache and of the inference backend *)

(** Resolution of a miss, when the lookup itself works: whatever follows,
    the inference backend is called once and only inference can answer. *)
Lemma resolution_miss_calls env query w g out w1 :
  truthy_opt (cached env w (UserQuery.text query)) = false →
  redis_client w = None ∨ redis_get_error env = None →
  groq_client w = Some g →
  resolution env query w = (out, w1) →
  inference_calls (trace w1) = S (inference_calls (trace w)) ∧
  (∀ src txt, out = Return (src, txt) → src = "llm (Groq)").
Proof.
  unfold resolution, cache_layer, redis_get, inference_layer,
    groq_chat_completions_create, first_choice_content, redis_setex, cached.
  unfold_m. intros Hmiss Hlookup Hg Hrun.
  repeat (case_match; simplify_eq/=);
    try (destruct Hlookup; congruence);
    try match goal with
        | Ht : truthy ?s = true, Hn : negb (truthy ?s) = true |- _ =>
            rewrite Ht in Hn; discriminate
        | Ht : truthy ?s = true, Hv : live_value _ _ _ = Some ?s |- _ =>
            rewrite Hv in Hmiss; simpl in Hmiss; congruence
        end;
    rewrite ?inference_calls_app; simpl;
    (split; [lia | intros; by simplify_eq]).
Qed.

(** What resolution does when the completion call does not produce a
    choice. *)
Lemma resolution_inference_fails env query w g e :
  truthy_opt (cached env w (UserQuery.text query)) = false →
  redis_client w = None ∨ redis_get_error env = None →
  groq_client w = Some g →
  match groq_create env (request_messages query) request_model with
  | inl e' => e = e'
  | inr completion =>
      choices completion = [] ∧ e = Exception "list index out of range"
  end →
  ∃ w1, resolution env query w = (Raise e, w1) ∧
        redis_client w1 = redis_client w ∧
        database w1 = database w ∧
        inference_calls (trace w1) = S (inference_calls (trace w)).
Proof.
  unfold resolution, cache_layer, redis_get, inference_layer,
    groq_chat_completions_create, first_choice_content, redis_setex, cached.
  unfold_m. intros Hmiss Hlookup Hg Hfail.
  destruct (redis_client w) as [r|] eqn:Hr; simpl.
  - destruct Hlookup as [|Hget]; [done|]. rewrite Hget. simpl.
    destruct (live_value _ _ _) as [[|ch s]|]; simpl in *; try done;
      rewrite Hg; simpl;
      (destruct (groq_create _ _ _) as [e'|completion]; simpl;
       [subst e' | destruct Hfail as [-> ->]; simpl];
       eexists; (split; [done|]); simpl; rewrite !inference_calls_app; simpl;
       split_and!; (done || lia)).
  - rewrite Hg. simpl.
    destruct (groq_create _ _ _) as [e'|completion]; simpl;
      [subst e' | destruct Hfail as [-> ->]; simpl];
      eexists; (split; [done|]); simpl; rewrite !inference_calls_app; simpl;
      split_and!; (done || lia).
Qed.

(** X5: when the call of [chat.completions.create] raises, or returns a
    completion with no choice at all, [/chat] fails with HTTP 500 carrying
    the text of the exception; the handler has made that one call of
    [create] and no other, nothing is written to the cache, no statement
    is sent to the database and nothing is logged. *)
Theorem chat_inference_failure env query w g e :
  truthy_opt (cached env w (UserQuery.text query)) = false →
  redis_client w = None ∨ redis_get_error env = None →
  groq_client w = Some g →
  match groq_create env (request_messages query) request_model with
  | inl e' => e = e'
  | inr completion =>
      choices completion = [] ∧ e = Exception "list index out of range"
  end →
  ∃ w',
    chat_endpoint env query w = (Raise (HTTPException 500 (str e)), w') ∧
    redis_client w' = redis_client w ∧
    log_rows w' = log_rows w ∧
    inference_calls (trace w') = S (inference_calls (trace w)) ∧
    execute_calls (trace w') = execute_calls (trace w).
Proof.
  intros Hmiss Hlookup Hg Hfail.
  destruct (resolution_inference_fails env query w g e Hmiss Hlookup Hg Hfail)
    as (w1 & Hres & Hredis & Hdb & Hcalls).
  exists w1. split_and!; [| done | | done |].
  - by apply chat_endpoint_resolution_raises.
  - unfold log_rows. by rewrite Hdb.
  - by apply resolution_any_frame in Hres as (_ & _ & _ & Hexec & _).
Qed.

Lemma chat_inference_failure_witness :
  (∃ w',
     chat_endpoint (env_groq_raises "Invalid API Key") hi empty_world =
       (Raise (HTTPException 500 "Invalid API Key"), w') ∧
     redis_client w' = redis_client empty_world ∧
     log_rows w' = log_rows empty_world ∧
     inference_calls (trace w') = S (inference_calls (trace empty_world)) ∧
     execute_calls (trace w') = execute_calls (trace empty_world)) ∧
  (∃ w',
     chat_endpoint env_groq_no_choice hi empty_world =
       (Raise (HTTPException 500 "list index out of range"), w') ∧
     redis_client w' = redis_client empty_world ∧
     log_rows w' = log_rows empty_world ∧
     inference_calls (trace w') = S (inference_calls (trace empty_world)) ∧
     execute_calls (trace w') = execute_calls (trace empty_world)).
Proof.
  split.
  - apply (chat_inference_failure (env_groq_raises "Invalid API Key") hi empty_world
             {| api_key := "gsk" |} (Exception "Invalid API Key"));
      vm_compute; auto.
  - apply (chat_inference_failure env_groq_no_choice hi empty_world
             {| api_key := "gsk" |} (Exception "list index out of range"));
      vm_compute; auto.
Defined.

(** X6: an exception raised by the cache lookup is not taken for a miss:
    [/chat] fails with HTTP 500 carrying its text, the inference backend is
    not called, the cache is not written and nothing is logged. *)
Theorem chat_lookup_failure env query w r msg :
  redis_client w = Some r →
  redis_get_error env = Some msg →
  ∃ w',
    chat_endpoint env query w = (Raise (HTTPException 500 msg), w') ∧
    trace w' = trace w ++ [Call_redis_get (UserQuery.text query)] ∧
    redis_client w' = redis_client w ∧
    database w' = database w.
Proof.
  intros Hr Hget. eexists.
  split; [by apply (chat_endpoint_get_raises env w query r msg)|].
  by split_and!.
Qed.

Lemma chat_lookup_failure_witness :
  ∃ w',
    chat_endpoint (env_with "unused" (Some "Connection refused") None None None None)
      hi warm_world =
      (Raise (HTTPException 500 "Connection refused"), w') ∧
    trace w' = trace warm_world ++ [Call_redis_get "hi"] ∧
    redis_client w' = redis_client warm_world ∧
    database w' = database warm_world.
Proof.
  apply (chat_lookup_failure
           (env_with "unused" (Some "Connection refused") None None None None)
           hi warm_world
           {| kv := {[ "hi" := {| value := "Hello there"; expires_at := 3700 |} ]} |}
           "Connection refused");
    vm_compute; reflexivity.
Defined.

(** X7: an exception raised by the write-through loses the answer: the
    inference backend has been called and has answered, yet [/chat] fails
    with HTTP 500 carrying the text of the exception, the cache is not
    written and nothing is logged. *)
Theorem chat_write_through_failure env query w r g completion c cs msg :
  redis_client w = Some r →
  truthy_opt (cached env w (UserQuery.text query)) = false →
  redis_get_error env = None →
  groq_client w = Some g →
  groq_create env (request_messages query) request_model = inr completion →
  choices completion = c :: cs →
  redis_setex_error env = Some msg →
  ∃ w',
    chat_endpoint env query w = (Raise (HTTPException 500 msg), w') ∧
    inference_calls (trace w') = S (inference_calls (trace w)) ∧
    redis_client w' = redis_client w ∧
    log_rows w' = log_rows w ∧
    execute_calls (trace w') = execute_calls (trace w).
Proof.
  intros Hr Hmiss Hget Hg Hc Hcs Hset.
  pose proof (resolution_setex_raises env query w r g completion c cs msg
                Hr Hmiss Hget Hg Hc Hcs Hset) as Hres.
  eexists.
  split; [by apply (chat_endpoint_resolution_raises env query w (Exception msg))|].
  simpl. rewrite !inference_calls_app, !execute_calls_app. simpl.
  split_and!; [lia | done | done | lia].
Qed.

Lemma chat_write_through_failure_witness :
  ∃ w',
    chat_endpoint (env_with "Hello there" None (Some "READONLY") None None None)
      hi empty_world =
      (Raise (HTTPException 500 "READONLY"), w') ∧
    inference_calls (trace w') = S (inference_calls (trace empty_world)) ∧
    redis_client w' = redis_client empty_world ∧
    log_rows w' = log_rows empty_world ∧
    execute_calls (trace w') = execute_calls (trace empty_world).
Proof.
  apply (chat_write_through_failure
           (env_with "Hello there" None (Some "READONLY") None None None)
           hi empty_world {| kv := ∅ |} {| api_key := "gsk" |}
           {| choices := [ {| message := {| role := "assistant";
                                            content := "Hello there" |} |} ] |}
           {| message := {| role := "assistant"; content := "Hello there" |} |} []);
    vm_compute; reflexivity.
Defined.

(** A request that finds no non-empty value, with the lookup working and
    the inference client configured, calls the backend once whatever the
    outcome, and can only answer from inference. *)
Lemma chat_endpoint_miss_calls env query w g :
  truthy_opt (cached env w (UserQuery.text query)) = false →
  redis_client w = None ∨ redis_get_error env = None →
  groq_client w = Some g →
  inference_calls (trace (snd (chat_endpoint env query w))) =
    S (inference_calls (trace w)) ∧
  (∀ resp, fst (chat_endpoint env query w) = Return resp →
           AgentResponse.source resp = "llm (Groq)").
Proof.
  intros Hmiss Hlookup Hg.
  destruct (chat_endpoint_cases env query w)
    as [(e0 & w1 & Hres & ->)|(src & txt & w1 & out & w2 & Hres & Hlog & ->)];
    simpl;
    destruct (resolution_miss_calls env query w g _ _ Hmiss Hlookup Hg Hres)
      as [Hcalls Hsrc].
  - by split.
  - apply persistence_layer_frame in Hlog as [_ Hcalls'].
    split; [congruence|].
    intros resp. destruct out; [|done]. intros [= <-]. simpl. by eapply Hsrc.
Qed.

(** X8: a cached answer is served for 3600 seconds and no longer.  Once an
    answer inferred for a text has been stored, a request for the same text
    made 3600 seconds later or more (by the Redis clock) does not get the
    stored answer: the inference backend is called again and any envelope
    returned has source ["llm (Groq)"]. *)
Theorem chat_expired_entry_is_a_miss env1 env2 query1 query2 w r g resp1 w1 :
  UserQuery.text query1 = UserQuery.text query2 →
  redis_client w = Some r →
  groq_client w = Some g →
  chat_endpoint env1 query1 w = (Return resp1, w1) →
  AgentResponse.source resp1 = "llm (Groq)" →
  redis_time env1 + 3600 ≤ redis_time env2 →
  redis_get_error env2 = None →
  cached env2 w1 (UserQuery.text query2) = None ∧
  inference_calls (trace (snd (chat_endpoint env2 query2 w1))) =
    S (inference_calls (trace w1)) ∧
  (∀ resp2, fst (chat_endpoint env2 query2 w1) = Return resp2 →
            AgentResponse.source resp2 = "llm (Groq)").
Proof.
  intros Htext Hr Hg Hrun1 Hsrc1 Hlate Hget.
  apply chat_endpoint_Return_inv in Hrun1 as (src & txt & w0 & Hres & Hlog & ->).
  simpl in Hsrc1. subst src.
  pose proof (resolution_llm_stored env1 query1 w r txt w0 Hr Hres) as Hstored.
  apply persistence_layer_frame in Hlog as Hframe. destruct Hframe as [Hredis _].
  assert (cached env2 w1 (UserQuery.text query2) = None) as Hexpired.
  { unfold cached, live_value. rewrite Hredis, Hstored. simpl.
    rewrite Htext, lookup_insert_eq. simpl.
    by rewrite (proj2 (Z.ltb_ge _ _) Hlate). }
  split; [done|].
  apply (chat_endpoint_miss_calls env2 query2 w1 g).
  - by rewrite Hexpired.
  - by right.
  - apply resolution_any_frame in Hres as (_ & Hg0 & _).
    apply persistence_layer_any_frame in Hlog as (_ & Hg' & _).
    congruence.
Qed.

Lemma chat_expired_entry_is_a_miss_witness :
  cached (quiet_env_at 3700 "Hello again")
    (snd (chat_endpoint (quiet_env "Hello there") hi empty_world))
    (UserQuery.text hi_from_2) = None ∧
  inference_calls
    (trace (snd (chat_endpoint (quiet_env_at 3700 "Hello again") hi_from_2
                   (snd (chat_endpoint (quiet_env "Hello there") hi empty_world))))) =
    S (inference_calls
         (trace (snd (chat_endpoint (quiet_env "Hello there") hi empty_world)))) ∧
  (∀ resp2,
     fst (chat_endpoint (quiet_env_at 3700 "Hello again") hi_from_2
            (snd (chat_endpoint (quiet_env "Hello there") hi empty_world))) =
       Return resp2 →
     AgentResponse.source resp2 = "llm (Groq)").
Proof.
  apply (chat_expired_entry_is_a_miss (quiet_env "Hello there")
           (quiet_env_at 3700 "Hello again") hi hi_from_2 empty_world
           {| kv := ∅ |} {| api_key := "gsk" |}
           (envelope (quiet_env "Hello there") "llm (Groq)" "Hello there"));
    vm_compute; first [reflexivity | discriminate].
Defined.

(** ** [/chat]: when the log store refuses the row *)

(** A request whose row the store would refuse fails, whatever the cache
    and the inference backend do. *)
Lemma chat_endpoint_refused env query w :
  (∀ resp, insert_accepted env (database w) (UserQuery.user_id query)
             (UserQuery.text query) resp = false) →
  ∃ detail w',
    chat_endpoint env query w = (Raise (HTTPException 500 detail), w') ∧
    log_rows w' = log_rows w.
Proof.
  intros Hrefused.
  destruct (chat_endpoint env query w) as [[resp|e] w'] eqn:Hrun.
  - apply chat_endpoint_Return_inv in Hrun as (src & txt & w1 & Hres & Hlog & _).
    apply resolution_any_frame in Hres as (Hdb & _).
    apply persistence_layer_Return_inv in Hlog as (t & _ & Hacc & _).
    rewrite Hdb, Hrefused in Hacc. discriminate.
  - destruct (chat_endpoint_Raise_inv env query w e w' Hrun) as [detail ->].
    exists detail, w'. split; [done|]. by eapply chat_failure_rows.
Qed.

(** X9: while the database handle is not connected (before [startup] has
    connected it, or after [shutdown]) every [/chat] request fails with
    HTTP 500 and logs nothing, even when the cache holds the answer. *)
Theorem chat_needs_connection env query w :
  is_connected (database w) = false →
  ∃ detail w',
    chat_endpoint env query w = (Raise (HTTPException 500 detail), w') ∧
    log_rows w' = log_rows w.
Proof.
  intros Hdown. apply chat_endpoint_refused. intros resp.
  unfold insert_accepted. rewrite Hdown.
  by destruct (db_execute_error env), (interactions (database w)).
Qed.

Lemma chat_needs_connection_witness :
  cached (quiet_env "unused") disconnected_world (UserQuery.text hi) =
    Some "Hello there" ∧
  ∃ detail w',
    chat_endpoint (quiet_env "unused") hi disconnected_world =
      (Raise (HTTPException 500 detail), w') ∧
    log_rows w' = log_rows disconnected_world.
Proof.
  split; [vm_compute; reflexivity|].
  apply (chat_needs_connection (quiet_env "unused") hi disconnected_world).
  vm_compute. reflexivity.
Defined.

(** X10: a [user_id] outside the range of the [INTEGER] column (which the
    request model, with its unbounded [int], lets through) never gets an
    answer: [/chat] fails with HTTP 500 and logs nothing. *)
Theorem chat_user_id_out_of_range env query w :
  fits_INTEGER (UserQuery.user_id query) = false →
  ∃ detail w',
    chat_endpoint env query w = (Raise (HTTPException 500 detail), w') ∧
    log_rows w' = log_rows w.
Proof.
  intros Hbig. apply chat_endpoint_refused. intros resp.
  unfold insert_accepted. rewrite Hbig.
  destruct (db_execute_error env), (interactions (database w)); try done.
  by rewrite andb_false_r.
Qed.

Lemma chat_user_id_out_of_range_witness :
  ∃ detail w',
    chat_endpoint (quiet_env "unused") hi_from_far warm_world =
      (Raise (HTTPException 500 detail), w') ∧
    log_rows w' = log_rows warm_world.
Proof.
  apply (chat_user_id_out_of_range (quiet_env "unused") hi_from_far warm_world).
  vm_compute. reflexivity.
Defined.

(** X11: the write-through is not undone when logging fails.  On a miss
    whose answer was inferred and stored, a refusal of the row by the log
    store makes [/chat] fail with HTTP 500, yet the answer stays in the
    cache under the text of the query, with its 3600-second expiry, and
    the inference call has been spent. *)
Theorem chat_failed_log_keeps_cache_write env query w r g completion c cs :
  redis_client w = Some r →
  truthy_opt (cached env w (UserQuery.text query)) = false →
  redis_get_error env = None →
  groq_client w = Some g →
  groq_create env (request_messages query) request_model = inr completion →
  choices completion = c :: cs →
  redis_setex_error env = None →
  insert_accepted env (database w) (UserQuery.user_id query) (UserQuery.text query)
    (content (message c)) = false →
  ∃ detail w',
    chat_endpoint env query w = (Raise (HTTPException 500 detail), w') ∧
    redis_client w' =
      Some {| kv := <[UserQuery.text query :=
                       {| value := content (message c);
                          expires_at := redis_time env + 3600 |}]> (kv r) |} ∧
    inference_calls (trace w') = S (inference_calls (trace w)) ∧
    log_rows w' = log_rows w.
Proof.
  intros Hr Hmiss Hget Hg Hc Hcs Hset Hrefused.
  pose proof (resolution_miss_stores env query w r g completion c cs
                Hr Hmiss Hget Hg Hc Hcs Hset) as Hres.
  match type of Hres with _ = (_, ?w0) => set (w1 := w0) in * end.
  assert (insert_accepted env (database w1) (UserQuery.user_id query)
            (UserQuery.text query) (content (message c)) = false)
    as Hrefused1 by done.
  destruct (persistence_layer_refused env query "llm (Groq)" (content (message c))
              w1 Hrefused1) as (e & w2 & Hlog & Hrows).
  exists (str e), w2.
  pose proof (persistence_layer_frame _ _ _ _ _ _ _ Hlog) as [Hredis Hcalls].
  split_and!.
  - by eapply chat_endpoint_log_raises.
  - by rewrite Hredis.
  - rewrite Hcalls. simpl. rewrite !inference_calls_app. simpl. lia.
  - by rewrite Hrows.
Qed.

Lemma chat_failed_log_keeps_cache_write_witness :
  ∃ detail w',
    chat_endpoint (quiet_env "Hello there") hi_from_far empty_world =
      (Raise (HTTPException 500 detail), w') ∧
    redis_client w' =
      Some {| kv := <["hi" := {| value := "Hello there"; expires_at := 100 + 3600 |}]> ∅ |} ∧
    inference_calls (trace w') = S (inference_calls (trace empty_world)) ∧
    log_rows w' = log_rows empty_world.
Proof.
  apply (chat_failed_log_keeps_cache_write (quiet_env "Hello there") hi_from_far
           empty_world {| kv := ∅ |} {| api_key := "gsk" |}
           {| choices := [ {| message := {| role := "assistant";
                                            content := "Hello there" |} |} ] |}
           {| message := {| role := "assistant"; content := "Hello there" |} |} []);
    vm_compute; reflexivity.
Defined.

(** ** The identifiers of the log *)

Lemma table_wf_fresh t : table_wf t → id_taken (id_seq t + 1) t = false.
Proof.
  intros [_ Hbound]. unfold id_taken.
  induction Hbound as [|r l Hr _ IH]; simpl; [done|].
  rewrite IH, orb_false_r. apply Z.eqb_neq. lia.
Qed.

Lemma table_wf_advance t :
  table_wf t → table_wf {| rows := rows t; id_seq := id_seq t + 1 |}.
Proof.
  intros [Hnodup Hbound]. split; simpl; [done|].
  eapply Forall_impl; [done|]. simpl. intros r Hr. lia.
Qed.

Lemma table_wf_insert t row :
  table_wf t →
  Interaction.id row = id_seq t + 1 →
  table_wf {| rows := rows t ++ [row]; id_seq := id_seq t + 1 |}.
Proof.
  intros [Hnodup Hbound] Hid. split; simpl.
  - rewrite fmap_app. simpl. apply NoDup_app. split_and!; [done | | apply NoDup_singleton].
    intros i Hi Hi'. apply list_elem_of_singleton in Hi'. subst i.
    apply list_elem_of_fmap in Hi as (r & Hr & Hin).
    rewrite Forall_forall in Hbound. specialize (Hbound r Hin). lia.
  - apply Forall_app. split.
    + eapply Forall_impl; [done|]. simpl. intros r Hr. lia.
    + apply Forall_singleton. lia.
Qed.

Lemma persistence_layer_wf env query source response_text w out w1 :
  database_wf (database w) →
  persistence_layer env query source response_text w = (out, w1) →
  database_wf (database w1).
Proof.
  unfold database_wf, persistence_layer, database_execute, require_connection,
    require_interactions, set_interactions.
  unfold_m. intros Hwf Hrun.
  repeat (case_match; simplify_eq/=); try done;
    first [by apply table_wf_advance | by apply table_wf_insert].
Qed.

(** With well-formed identifiers the next identifier is always free, so
    the store accepts a row as soon as the call goes through, the handle is
    connected, the table exists, the user id is in range, the texts hold no
    [U+0000] and the sequence is not exhausted. *)
Lemma insert_accepted_wf env db uid inp resp t :
  database_wf db →
  db_execute_error env = None →
  is_connected db = true →
  interactions db = Some t →
  fits_INTEGER uid = true →
  fits_TEXT inp = true →
  fits_TEXT resp = true →
  fits_INTEGER (id_seq t + 1) = true →
  insert_accepted env db uid inp resp = true.
Proof.
  unfold database_wf, insert_accepted.
  intros Hwf Hexec Hconn Htab Huid Hinp Hresp Hseq.
  rewrite Htab in Hwf. rewrite Hexec, Htab, Hconn, Huid, Hinp, Hresp, Hseq. simpl.
  by rewrite table_wf_fresh.
Qed.

(** X12: every handler keeps the identifiers of the log well formed: they
    stay pairwise distinct and none is ahead of the sequence [SERIAL] draws
    them from, whatever the outcome of the handler. *)
Theorem handlers_keep_identifiers_wf env w :
  database_wf (database w) →
  (∀ query, database_wf (database (snd (chat_endpoint env query w)))) ∧
  database_wf (database (snd (startup env w))) ∧
  database_wf (database (snd (shutdown env w))) ∧
  database_wf (database (snd (get_analytics env w))).
Proof.
  intros Hwf. split_and!.
  - intros query.
    destruct (chat_endpoint_cases env query w)
      as [(e0 & w1 & Hres & ->)|(src & txt & w1 & out & w2 & Hres & Hlog & ->)];
      simpl;
      apply resolution_any_frame in Hres as (Hdb & _).
    + by rewrite Hdb.
    + eapply persistence_layer_wf; [|done]. by rewrite Hdb.
  - revert Hwf.
    unfold database_wf, startup, database_connect, database_execute,
      require_connection, set_interactions.
    unfold_m. intros Hwf.
    repeat (case_match; simplify_eq/=); try done.
    split; simpl; [apply NoDup_nil_2 | apply Forall_nil_2].
  - revert Hwf. unfold database_wf, shutdown, database_disconnect.
    unfold_m. intros Hwf.
    by repeat (case_match; simplify_eq/=).
  - revert Hwf.
    unfold database_wf, get_analytics, database_fetch_all, require_connection,
      require_interactions.
    unfold_m. intros Hwf.
    by repeat (case_match; simplify_eq/=).
Qed.

Lemma handlers_keep_identifiers_wf_witness :
  (∀ query,
     database_wf (database (snd (chat_endpoint (quiet_env "Hello there") query
                                   busy_world)))) ∧
  database_wf (database (snd (startup (quiet_env "Hello there") busy_world))) ∧
  database_wf (database (snd (shutdown (quiet_env "Hello there") busy_world))) ∧
  database_wf (database (snd (get_analytics (quiet_env "Hello there") busy_world))).
Proof.
  apply (handlers_keep_identifiers_wf (quiet_env "Hello there") busy_world).
  split; apply (bool_decide_unpack _); vm_compute; exact I.
Defined.

(** X13: with well-formed identifiers a duplicate key cannot occur, so the
    store refuses a row only for one of the reasons of the schema: an
    answer that has been resolved is logged and returned as soon as the
    [INSERT] call goes through, the handle is connected, the table exists,
    the user id fits [INTEGER], neither the text of the query nor the
    answer holds [U+0000], and the sequence of identifiers is not
    exhausted. *)
Theorem chat_logs_whenever_resolved env query w t source response_text w1 :
  database_wf (database w) →
  db_execute_error env = None →
  is_connected (database w) = true →
  interactions (database w) = Some t →
  fits_INTEGER (UserQuery.user_id query) = true →
  fits_TEXT (UserQuery.text query) = true →
  fits_TEXT response_text = true →
  fits_INTEGER (id_seq t + 1) = true →
  resolution env query w = (Return (source, response_text), w1) →
  chat_endpoint env query w =
    (Return (envelope env source response_text),
     logged env query source response_text t w1).
Proof.
  intros Hwf Hexec Hconn Htab Huid Hinp Hresp Hseq Hres.
  pose proof (resolution_frame _ _ _ _ _ _ Hres) as (Hdb & _ & Hfits).
  pose proof (resolution_source_fits _ _ _ _ _ _ Hres) as Hsrc.
  eapply chat_endpoint_logged; [done|].
  apply persistence_layer_accepted; [by rewrite Hdb | | done | done].
  rewrite Hdb. by eapply insert_accepted_wf.
Qed.

Lemma chat_logs_whenever_resolved_witness :
  chat_endpoint (quiet_env "unused") hi
    (put_redis_client (redis_client warm_world) busy_world) =
  (Return (envelope (quiet_env "unused") "cache (Redis)" "Hello there"),
   logged (quiet_env "unused") hi "cache (Redis)" "Hello there"
     {| rows := busy_rows; id_seq := 12 |}
     (add_event (Call_redis_get "hi")
        (put_redis_client (redis_client warm_world) busy_world))).
Proof.
  apply (chat_logs_whenever_resolved (quiet_env "unused") hi
           (put_redis_client (redis_client warm_world) busy_world)
           {| rows := busy_rows; id_seq := 12 |});
    [split; apply (bool_decide_unpack _); vm_compute; exact I | .. ];
    vm_compute; reflexivity.
Defined.

(** The two refusals the handler itself cannot see coming: a text with
    [U+0000] and an exhausted sequence end in HTTP 500, after the answer
    was resolved. *)
Example chat_refuses_nul_text :
  fst (chat_endpoint (quiet_env "Hello there") nul_query empty_world) =
    Raise (HTTPException 500 "invalid byte sequence for encoding UTF8: 0x00") ∧
  cached (quiet_env "Hello there")
    (snd (chat_endpoint (quiet_env "Hello there") nul_query empty_world))
    (UserQuery.text nul_query) = Some "Hello there" ∧
  log_rows (snd (chat_endpoint (quiet_env "Hello there") nul_query empty_world)) = [].
Proof. vm_compute. by split_and!. Qed.

Example chat_refuses_exhausted_sequence :
  fst (chat_endpoint (quiet_env "Hello there") hi full_world) =
    Raise (HTTPException 500 "nextval: reached maximum value of sequence") ∧
  log_rows (snd (chat_endpoint (quiet_env "Hello there") hi full_world)) = [].
Proof. vm_compute. by split_and!. Qed.

(** ** [/analytics] *)

(** The record with the greatest identifier comes first. *)
Lemma merge_sort_newest_first (l : list Interaction.t) (x : Interaction.t) :
  Forall (λ r, Interaction.id r < Interaction.id x) l →
  ∃ rest, merge_sort id_desc (l ++ [x]) = x :: rest.
Proof.
  intros Hold.
  pose proof (@StronglySorted_merge_sort _ id_desc _ id_desc_transitive
                id_desc_total (l ++ [x])) as Hsorted.
  pose proof (merge_sort_Permutation id_desc (l ++ [x])) as Hperm.
  destruct (merge_sort id_desc (l ++ [x])) as [|h rest] eqn:Hsort.
  - apply Permutation_nil_l in Hperm. by destruct l.
  - exists rest. f_equal.
    apply StronglySorted_cons in Hsorted as [Hfirst _].
    assert (h ∈ l ++ [x]) as Hh by (rewrite <- Hperm; left).
    assert (x ∈ h :: rest) as Hx
      by (rewrite Hperm; apply elem_of_app; right; left).
    apply elem_of_app in Hh as [Hh|Hh]; [|by apply list_elem_of_singleton in Hh].
    rewrite Forall_forall in Hold. specialize (Hold h Hh).
    apply elem_of_cons in Hx as [Hx|Hx]; [done|].
    rewrite Forall_forall in Hfirst. specialize (Hfirst x Hx).
    unfold id_desc in Hfirst. lia.
Qed.

(** X14: the interaction a successful [/chat] request has just logged is
    the first record [/analytics] returns next (identifiers being well
    formed), with the user id and text of the request and the response and
    source of the envelope. *)
Theorem analytics_shows_latest_chat env env' query w resp w' :
  database_wf (database w) →
  chat_endpoint env query w = (Return resp, w') →
  db_fetch_all_error env' = None →
  ∃ row rest w'',
    get_analytics env' w' = (Return (row :: rest), w'') ∧
    last (log_rows w') = Some row ∧
    Interaction.user_id row = UserQuery.user_id query ∧
    Interaction.input_text row = UserQuery.text query ∧
    Interaction.ai_response row = AgentResponse.response resp ∧
    Interaction.source row = AgentResponse.source resp.
Proof.
  intros Hwf (src & txt & w1 & Hres & Hlog & ->)%chat_endpoint_Return_inv Hfetch.
  apply resolution_frame in Hres as (Hdb & _ & _).
  apply persistence_layer_Return_inv in Hlog as (t & Htab & _ & ->).
  rewrite Hdb in Htab. unfold database_wf in Hwf. rewrite Htab in Hwf.
  set (row := new_row env t (UserQuery.user_id query) (UserQuery.text query) txt src).
  destruct (merge_sort_newest_first (rows t) row) as [rest Hsort].
  { destruct Hwf as [_ Hbound]. eapply Forall_impl; [done|]. simpl. intros r Hr. lia. }
  exists row, (take 9 rest). eexists.
  split; [|split_and!; try done].
  - erewrite get_analytics_connected; [|done|done|done]. simpl.
    fold row. by rewrite Hsort.
  - unfold log_rows. simpl. by rewrite last_snoc.
Qed.

Lemma analytics_shows_latest_chat_witness :
  ∃ row rest w'',
    get_analytics (quiet_env "unused")
      (snd (chat_endpoint (quiet_env "Hello there") hi empty_world)) =
      (Return (row :: rest), w'') ∧
    last (log_rows (snd (chat_endpoint (quiet_env "Hello there") hi empty_world))) =
      Some row ∧
    Interaction.user_id row = UserQuery.user_id hi ∧
    Interaction.input_text row = UserQuery.text hi ∧
    Interaction.ai_response row =
      AgentResponse.response
        (envelope (quiet_env "Hello there") "llm (Groq)" "Hello there") ∧
    Interaction.source row =
      AgentResponse.source
        (envelope (quiet_env "Hello there") "llm (Groq)" "Hello there").
Proof.
  apply (analytics_shows_latest_chat (quiet_env "Hello there") (quiet_env "unused")
           hi empty_world
           (envelope (quiet_env "Hello there") "llm (Groq)" "Hello there")
           (snd (chat_endpoint (quiet_env "Hello there") hi empty_world)));
    [split; apply (bool_decide_unpack _); vm_compute; exact I | .. ];
    vm_compute; reflexivity.
Defined.

(** What [/analytics] does when the store cannot answer. *)
Lemma get_analytics_unavailable env w :
  db_fetch_all_error env ≠ None ∨
  is_connected (database w) = false ∨
  interactions (database w) = None →
  ∃ detail,
    get_analytics env w =
      (Raise (HTTPException 500 detail),
       add_event
         (Call_database_fetch_all SELECT_FROM_interactions_ORDER_BY_id_DESC_LIMIT_10)
         w).
Proof.
  unfold get_analytics, database_fetch_all, require_connection, require_interactions.
  unfold_m. intros Hdown.
  destruct (db_fetch_all_error env) as [msg|]; simpl; [by eexists|].
  destruct (is_connected (database w)); simpl; [|by eexists].
  destruct (interactions (database w)); simpl; [|by eexists].
  by destruct Hdown as [|[|]].
Qed.

(** X15: [/analytics] only reads: whatever its outcome, the database, the
    cache and the inference client are what they were, the only call made
    is the one [SELECT], and a failure reaches the caller as HTTP 500. *)
Theorem analytics_is_read_only env w :
  database (snd (get_analytics env w)) = database w ∧
  redis_client (snd (get_analytics env w)) = redis_client w ∧
  groq_client (snd (get_analytics env w)) = groq_client w ∧
  trace (snd (get_analytics env w)) =
    trace w ++
      [Call_database_fetch_all SELECT_FROM_interactions_ORDER_BY_id_DESC_LIMIT_10] ∧
  (∀ e, fst (get_analytics env w) = Raise e → ∃ detail, e = HTTPException 500 detail).
Proof.
  unfold get_analytics, database_fetch_all, require_connection, require_interactions.
  unfold_m.
  repeat (case_match; simplify_eq/=);
    (split_and!; [done | done | done | done |]);
    intros e' He'; simplify_eq; eauto.
Qed.

(** X16: while the log has at most 10 rows [/analytics] returns all of
    them, each once. *)
Theorem analytics_small_log_complete env w t :
  db_fetch_all_error env = None →
  is_connected (database w) = true →
  interactions (database w) = Some t →
  (length (rows t) ≤ 10)%nat →
  ∃ records w',
    get_analytics env w = (Return records, w') ∧
    records ≡ₚ rows t ∧
    StronglySorted id_desc records.
Proof.
  intros Hfetch Hconn Htab Hsmall.
  eexists _, _. split; [by apply get_analytics_connected|].
  rewrite take_ge by by rewrite merge_sort_Permutation.
  split; [apply merge_sort_Permutation|].
  apply (@StronglySorted_merge_sort _ id_desc _ id_desc_transitive id_desc_total).
Qed.

Lemma analytics_small_log_complete_witness :
  ∃ records w',
    get_analytics (quiet_env "unused")
      (snd (chat_endpoint (quiet_env "Hello there") hi empty_world)) =
      (Return records, w') ∧
    records ≡ₚ
      [new_row (quiet_env "Hello there") {| rows := []; id_seq := 0 |}
         1 "hi" "Hello there" "llm (Groq)"] ∧
    StronglySorted id_desc records.
Proof.
  apply (analytics_small_log_complete (quiet_env "unused")
           (snd (chat_endpoint (quiet_env "Hello there") hi empty_world))
           {| rows := [new_row (quiet_env "Hello there") {| rows := []; id_seq := 0 |}
                         1 "hi" "Hello there" "llm (Groq)"];
              id_seq := 1 |});
    [vm_compute; reflexivity ..| simpl; lia].
Defined.

(** X17: [/analytics] fails with HTTP 500, and changes nothing, when the
    query raises, when the handle is not connected, and when the
    [interactions] table was never created (a [startup] that failed). *)
Theorem analytics_unavailable env w :
  db_fetch_all_error env ≠ None ∨
  is_connected (database w) = false ∨
  interactions (database w) = None →
  ∃ detail w',
    get_analytics env w = (Raise (HTTPException 500 detail), w') ∧
    database w' = database w.
Proof.
  intros Hdown.
  destruct (get_analytics_unavailable env w Hdown) as [detail Hrun].
  by eexists _, _.
Qed.

Lemma analytics_unavailable_witness :
  ∃ detail w',
    get_analytics (quiet_env "unused")
      (snd (startup (env_with "unused" None None (Some "Connection refused") None None)
              tableless_world)) =
      (Raise (HTTPException 500 detail), w') ∧
    database w' =
      database (snd (startup (env_with "unused" None None (Some "Connection refused")
                               None None) tableless_world)).
Proof.
  apply (analytics_unavailable (quiet_env "unused")
           (snd (startup (env_with "unused" None None (Some "Connection refused")
                            None None) tableless_world))).
  right. left. vm_compute. reflexivity.
Defined.

(** ** The lifecycle hooks and the module-level handles *)

(** [startup] touches the database only. *)
Lemma startup_frame env w :
  redis_client (snd (startup env w)) = redis_client w ∧
  groq_client (snd (startup env w)) = groq_client w ∧
  log_rows (snd (startup env w)) = log_rows w.
Proof.
  unfold startup, database_connect, database_execute, require_connection,
    set_interactions, log_rows.
  unfold_m.
  by repeat (case_match; simplify_eq/=).
Qed.

(** X18: [shutdown] closes the connection and keeps the data: the rows and
    the sequence are untouched, and from then on every [/chat] and every
    [/analytics] request fails with HTTP 500.  Unlike [startup], it does not
    catch: an exception of [disconnect] leaves the hook as it is. *)
Theorem shutdown_disconnects env w :
  (db_disconnect_error env = None →
   ∃ w',
     shutdown env w = (Return (), w') ∧
     is_connected (database w') = false ∧
     interactions (database w') = interactions (database w) ∧
     redis_client w' = redis_client w ∧
     (∀ env' query, ∃ detail w'',
        chat_endpoint env' query w' = (Raise (HTTPException 500 detail), w'') ∧
        log_rows w'' = log_rows w) ∧
     (∀ env', ∃ detail w'',
        get_analytics env' w' = (Raise (HTTPException 500 detail), w''))) ∧
  (∀ msg,
     db_disconnect_error env = Some msg →
     shutdown env w = (Raise (Exception msg), add_event Call_database_disconnect w)).
Proof.
  split.
  - intros Hquiet.
    unfold shutdown, database_disconnect. unfold_m. rewrite Hquiet. simpl.
    eexists. split; [done|]. simpl. split_and!; try done.
    + intros env' query.
      match goal with
      | |- context [chat_endpoint env' query ?w0] =>
          destruct (chat_endpoint_refused env' query w0) as (detail & w'' & Hrun & Hrows)
      end.
      { unfold insert_accepted. simpl.
        by destruct (db_execute_error env'), (interactions (database w)). }
      by exists detail, w''.
    + intros env'.
      match goal with
      | |- context [get_analytics env' ?w0] =>
          destruct (get_analytics_unavailable env' w0) as [detail Hrun]
      end.
      { right. by left. }
      by eexists _, _.
  - intros msg Hfail.
    unfold shutdown, database_disconnect. unfold_m. by rewrite Hfail.
Qed.

Lemma shutdown_disconnects_witness :
  (∃ w',
     shutdown (quiet_env "unused") busy_world = (Return (), w') ∧
     is_connected (database w') = false ∧
     interactions (database w') = interactions (database busy_world) ∧
     redis_client w' = redis_client busy_world ∧
     (∀ env' query, ∃ detail w'',
        chat_endpoint env' query w' = (Raise (HTTPException 500 detail), w'') ∧
        log_rows w'' = log_rows busy_world) ∧
     (∀ env', ∃ detail w'',
        get_analytics env' w' = (Raise (HTTPException 500 detail), w''))).
Proof.
  apply (proj1 (shutdown_disconnects (quiet_env "unused") busy_world)).
  vm_compute. reflexivity.
Defined.

(** X19: once [startup] has gone through on a database whose identifiers
    are well formed (in particular one with no table yet), the log is
    ready.  A request whose answer is resolved is then logged and returned
    whenever its [INSERT] goes through, its user id fits [INTEGER], neither
    its text nor the answer holds [U+0000] and the sequence is not
    exhausted; the row it adds continues the sequence (identifier 1 in a
    table just created), and its timestamp is the one the store assigns. *)
Theorem startup_makes_log_ready env0 env query w source response_text w1 :
  db_connect_error env0 = None →
  db_execute_error env0 = None →
  database_wf (database w) →
  db_execute_error env = None →
  fits_INTEGER (UserQuery.user_id query) = true →
  fits_TEXT (UserQuery.text query) = true →
  fits_TEXT response_text = true →
  fits_INTEGER (match interactions (database w) with
                | Some t => id_seq t + 1
                | None => 1
                end) = true →
  resolution env query (snd (startup env0 w)) = (Return (source, response_text), w1) →
  ∃ w' row,
    chat_endpoint env query (snd (startup env0 w)) =
      (Return (envelope env source response_text), w') ∧
    log_rows w' = log_rows w ++ [row] ∧
    Interaction.id row =
      match interactions (database w) with
      | Some t => id_seq t + 1
      | None => 1
      end ∧
    Interaction.timestamp row = db_now env.
Proof.
  intros Hconn Hexec Hwf Hexec' Huid Hinp Hresp Hseq.
  rewrite (startup_succeeds env0 w Hconn Hexec). simpl.
  set (t := default {| rows := []; id_seq := 0 |} (interactions (database w))).
  match goal with |- context [resolution env query ?w0] => set (w0' := w0) end.
  intros Hres.
  assert (database_wf (database w0')) as Hwf0.
  { unfold database_wf in *. simpl. subst t.
    destruct (interactions (database w)); simpl; [done|].
    split; simpl; [apply NoDup_nil_2 | apply Forall_nil_2]. }
  assert (fits_INTEGER (id_seq t + 1) = true) as Hseq'.
  { subst t. by destruct (interactions (database w)). }
  pose proof (resolution_frame _ _ _ _ _ _ Hres) as (Hdb & _ & Hfits).
  pose proof (resolution_source_fits _ _ _ _ _ _ Hres) as Hsrc.
  assert (insert_accepted env (database w1) (UserQuery.user_id query)
            (UserQuery.text query) response_text = true) as Hacc.
  { rewrite Hdb. by eapply (insert_accepted_wf env (database w0') _ _ _ t). }
  exists (logged env query source response_text t w1),
    (new_row env t (UserQuery.user_id query) (UserQuery.text query)
       response_text source).
  split_and!.
  - eapply chat_endpoint_logged; [done|].
    apply persistence_layer_accepted; [by rewrite Hdb | done | done | done].
  - unfold log_rows. simpl. subst t. by destruct (interactions (database w)).
  - simpl. subst t. by destruct (interactions (database w)).
  - done.
Qed.

Lemma startup_makes_log_ready_witness :
  ∃ w' row,
    chat_endpoint (quiet_env "Hello there") hi
      (snd (startup (quiet_env "unused") tableless_world)) =
      (Return (envelope (quiet_env "Hello there") "llm (Groq)" "Hello there"), w') ∧
    log_rows w' = log_rows tableless_world ++ [row] ∧
    Interaction.id row = 1 ∧
    Interaction.timestamp row = 7.
Proof.
  apply (startup_makes_log_ready (quiet_env "unused") (quiet_env "Hello there") hi
           tableless_world "llm (Groq)" "Hello there"
           (snd (resolution (quiet_env "Hello there") hi
                   (snd (startup (quiet_env "unused") tableless_world)))));
    first [exact I | vm_compute; reflexivity].
Defined.

(** Without an inference client resolution calls no backend. *)
Lemma resolution_unconfigured_calls env query w out w1 :
  groq_client w = None →
  resolution env query w = (out, w1) →
  inference_calls (trace w1) = inference_calls (trace w).
Proof.
  unfold resolution, cache_layer, redis_get, inference_layer,
    groq_chat_completions_create, first_choice_content, redis_setex.
  unfold_m. intros Hg Hrun.
  repeat (case_match; simplify_eq/=);
    rewrite ?inference_calls_app; simpl; lia.
Qed.

(** X20: an inference credential that is unset or empty leaves
    [groq_client] at [None], and [startup] does not change that: every
    request that the cache cannot answer then fails with HTTP 500, calls no
    backend and logs nothing. *)
Theorem missing_api_key_fails_misses from_url key schema env0 env query :
  key = None ∨ key = Some EmptyString →
  truthy_opt
    (cached env (snd (startup env0 (module_init from_url key schema)))
       (UserQuery.text query)) = false →
  ∃ detail w',
    chat_endpoint env query (snd (startup env0 (module_init from_url key schema))) =
      (Raise (HTTPException 500 detail), w') ∧
    inference_calls (trace w') = 0%nat ∧
    log_rows w' = log_rows (snd (startup env0 (module_init from_url key schema))).
Proof.
  intros Hkey Hmiss.
  set (w := snd (startup env0 (module_init from_url key schema))) in *.
  assert (groq_client w = None) as Hg.
  { subst w. rewrite (proj1 (proj2 (startup_frame _ _))). simpl.
    by destruct Hkey as [-> | ->]. }
  assert (inference_calls (trace w) = 0%nat) as Hcalls.
  { subst w. unfold startup, database_connect, database_execute,
      require_connection, set_interactions. unfold_m. simpl.
    by repeat (case_match; simplify_eq/=). }
  destruct (resolution_unconfigured env query w Hg Hmiss) as (e & w1 & Hres & Hdb).
  exists (str e), w1. split_and!.
  - by apply chat_endpoint_resolution_raises.
  - by rewrite (resolution_unconfigured_calls env query w _ _ Hg Hres).
  - unfold log_rows. by rewrite Hdb.
Qed.

Lemma missing_api_key_fails_misses_witness :
  ∃ detail w',
    chat_endpoint (quiet_env "unused") hi
      (snd (startup (quiet_env "unused")
              (module_init (inr {| kv := ∅ |}) (Some EmptyString) None))) =
      (Raise (HTTPException 500 detail), w') ∧
    inference_calls (trace w') = 0%nat ∧
    log_rows w' =
      log_rows (snd (startup (quiet_env "unused")
                       (module_init (inr {| kv := ∅ |}) (Some EmptyString) None))).
Proof.
  apply (missing_api_key_fails_misses (inr {| kv := ∅ |}) (Some EmptyString) None
           (quiet_env "unused") (quiet_env "unused") hi);
    [by right | vm_compute; reflexivity].
Defined.
